(** * Career tracker: the REST backend and the client's view derivation

    A shallow embedding of [backend/server.js] (validation, the route
    handlers over the JSON data file) and of the filter/sort effect of the
    React client, followed by the properties of the specification that were
    checked against them, and by further properties of the same code and of
    the client's form, sort toggle and status timeline and of
    [initDataFile].

    Conventions of the embedding.
    - A JavaScript string is the sequence of its code units; the model keeps
      the code units below 256, one [ascii] each.
    - A JavaScript number is an IEEE 754 binary64 value ([spec_float] of the
      Standard Library, precision 53, exponent bound 1024).
    - A JSON object is a finite map from property names to values; the order
      of the properties, which only shows in the serialised text, is not
      kept.  [None] stands for [undefined] when a property is read.
    - The builtins whose result depends on the engine ([parseInt],
      [Date.parse], [new Date(v)], [Number.prototype.toString]) are the
      fields of the class [Host]; everything is proved for every host.
    - The data file, the fault that a write may hit and the clock read by
      [Date.now()] make up the [world] that the handlers thread. *)

From Stdlib Require Import ZArith String Ascii List SpecFloat DecimalString.
From Stdlib Require Import Sorted Permutation Lia.
From stdpp Require Import gmap strings list fin_maps.

Set Warnings "-register-all".
Local Open Scope Z_scope.

(** ** Strings *)

Module JsString.

(** WhiteSpace and LineTerminator code units below 256: TAB, LF, VT, FF,
    CR, SP and NBSP. *)
Definition isWhiteSpace (c : ascii) : bool :=
  match N_of_ascii c with
  | 9 | 10 | 11 | 12 | 13 | 32 | 160 => true
  | _ => false
  end%N.

Fixpoint trimStart (s : string) : string :=
  match s with
  | EmptyString => EmptyString
  | String c r => if isWhiteSpace c then trimStart r else s
  end.

Fixpoint trimEnd (s : string) : string :=
  match s with
  | EmptyString => EmptyString
  | String c r =>
      match trimEnd r with
      | EmptyString => if isWhiteSpace c then EmptyString else String c EmptyString
      | r' => String c r'
      end
  end.

(** [String.prototype.trim]. *)
Definition trim (s : string) : string := trimEnd (trimStart s).

(** Lower-case mapping of one code unit below 256: A-Z, and the capital
    letters of the Latin-1 supplement (0xC0-0xDE without the
    multiplication sign 0xD7). *)
Definition lowerChar (c : ascii) : ascii :=
  let n := N_of_ascii c in
  if ((65 <=? n) && (n <=? 90))%N then ascii_of_N (n + 32)
  else if ((192 <=? n) && (n <=? 222) && negb (n =? 215))%N then ascii_of_N (n + 32)
  else c.

(** [String.prototype.toLowerCase]. *)
Fixpoint toLowerCase (s : string) : string :=
  match s with
  | EmptyString => EmptyString
  | String c r => String (lowerChar c) (toLowerCase r)
  end.

(** [String.prototype.includes]: [t] occurs in [s] at some position. *)
Fixpoint includes (s t : string) : bool :=
  String.prefix t s ||
  match s with
  | EmptyString => false
  | String _ r => includes r t
  end.

End JsString.

(** ** Numbers *)

Module JsNumber.

Definition prec : Z := 53.
Definition emax : Z := 1024.

Definition number : Type := spec_float.

Definition NaN : number := S754_nan.

(** The double nearest to an integer (exact below 2^53). *)
Definition of_Z (z : Z) : number := binary_normalize prec emax z 0 false.
Definition of_nat (n : nat) : number := of_Z (Z.of_nat n).

Definition div (x y : number) : number := SFdiv prec emax x y.
Definition mul (x y : number) : number := SFmul prec emax x y.

(** [x === y] on numbers: NaN differs from everything, +0 equals -0. *)
Definition eqb (x y : number) : bool := SFeqb x y.

(** ToBoolean on numbers: +0, -0 and NaN are falsy. *)
Definition truthy (x : number) : bool :=
  match x with
  | S754_zero _ | S754_nan => false
  | _ => true
  end.

(** The decimal digits of a natural number. *)
Definition digits (n : N) : string := NilZero.string_of_uint (N.to_uint n).

Fixpoint zeros (k : nat) : string :=
  match k with
  | O => EmptyString
  | S k' => String "0" (zeros k')
  end.

(** Step 10 of [Number.prototype.toFixed]: the integer [n] for which
    [n / 10^f] is nearest to [m * 2^e], the larger one on a tie. *)
Definition nearest_scaled (f : nat) (m : positive) (e : Z) : N :=
  let num := Z.pos m * 10 ^ Z.of_nat f in
  if 0 <=? e then Z.to_N (num * 2 ^ e)
  else let den := 2 ^ (- e) in Z.to_N ((2 * num + den) / (2 * den)).

(** Steps 10-11: the digits of [n] with a point before the last [f]. *)
Definition place_point (f : nat) (n : N) : string :=
  let m := digits n in
  match f with
  | O => m
  | _ =>
      let k := String.length m in
      let m := if (k <=? f)%nat then zeros (f + 1 - k) +:+ m else m in
      let k := String.length m in
      substring 0 (k - f) m +:+ "." +:+ substring (k - f) f m
  end.

(** [x < 10^21] for a positive finite [m * 2^e]. *)
Definition below_1e21 (m : positive) (e : Z) : bool :=
  if 0 <=? e then Z.pos m * 2 ^ e <? 10 ^ 21
  else Z.pos m <? 10 ^ 21 * 2 ^ (- e).

(** [Number.prototype.toFixed(f)]; [toString] is the engine's
    [Number::toString], used for the values that are not finite or not
    below 10^21 as the standard prescribes. *)
Definition toFixed (toString : number -> string) (f : nat) (x : number) : string :=
  match x with
  | S754_zero _ => place_point f 0
  | S754_finite s m e =>
      if below_1e21 m e
      then (if s then "-" else "") +:+ place_point f (nearest_scaled f m e)
      else toString x
  | _ => toString x
  end.

End JsNumber.

Export JsNumber (number).

(** ** JSON values *)

Inductive jsval : Type :=
| JNull
| JBool (b : bool)
| JNum (x : number)
| JStr (s : string)
| JArr (l : list jsval)
| JObj (m : gmap string jsval).

(** A JSON object, as [express.json()] parses a request body and as the
    data file stores a record. *)
Abbreviation obj := (gmap string jsval).

Module JsValue.

(** ToBoolean; [None] is [undefined]. *)
Definition ToBoolean (v : option jsval) : bool :=
  match v with
  | None | Some JNull => false
  | Some (JBool b) => b
  | Some (JNum x) => JsNumber.truthy x
  | Some (JStr s) => negb (bool_decide (s = ""))
  | Some (JArr _) | Some (JObj _) => true
  end.

(** [typeof v === 'string']. *)
Definition is_string (v : option jsval) : bool :=
  match v with
  | Some (JStr _) => true
  | _ => false
  end.

(** [v === w].  Arrays and objects are compared by reference; the two
    operands always come from different parses (a stored record against a
    request), so they are never the same reference. *)
Definition strict_eq (v w : option jsval) : bool :=
  match v, w with
  | None, None => true
  | Some JNull, Some JNull => true
  | Some (JBool a), Some (JBool b) => bool_decide (a = b)
  | Some (JNum x), Some (JNum y) => JsNumber.eqb x y
  | Some (JStr s), Some (JStr t) => bool_decide (s = t)
  | _, _ => false
  end.

(** ToString and ToPrimitive throw a TypeError on [v]: an object with an
    own [toString] property (a JSON value, hence not callable, hides
    [Object.prototype.toString], and [valueOf] returns the object), or an
    array with such an element, which [join] converts in turn. *)
Fixpoint ToString_throws (v : jsval) : bool :=
  match v with
  | JObj m => bool_decide (is_Some (m !! "toString"))
  | JArr l => existsb ToString_throws l
  | _ => false
  end.

(** The message of that TypeError in V8. *)
Definition conversion_error : string := "Cannot convert object to primitive value".


(** The object literal [{ ...target, ...source }]: the properties of
    [source] are written over those of [target]. *)
Definition spread (target source : obj) : obj := source ∪ target.

End JsValue.

(** ** Arrays *)

Module JsArray.
Section Ops.
Context {A : Type}.

(** [Array.prototype.findIndex]; [None] is the result -1. *)
Fixpoint findIndex (p : A -> bool) (l : list A) : option nat :=
  match l with
  | [] => None
  | x :: r => if p x then Some O else S <$> findIndex p r
  end.

(** The comparator's result as SortCompare reads it: NaN ([None]) counts
    as +0. *)
Definition sort_order (cmp : A -> A -> option Z) (x y : A) : Z :=
  default 0 (cmp x y).

(** [x] goes after the elements it is greater than, and in front of the
    first one it is not greater than. *)
Fixpoint sort_insert (cmp : A -> A -> option Z) (x : A) (l : list A) : list A :=
  match l with
  | [] => [x]
  | y :: r => if 0 <? sort_order cmp x y then y :: sort_insert cmp x r else x :: l
  end.

(** [Array.prototype.sort(cmp)], a stable insertion sort.  ECMAScript
    fixes the result of a sort only for a consistent comparator, and
    then every stable sort gives this list; the comparators of this
    program are consistent when every date is valid. *)
Definition sort (cmp : A -> A -> option Z) (l : list A) : list A :=
  foldr (sort_insert cmp) [] l.

End Ops.
End JsArray.

(** ** The engine's builtins *)

Class Host : Type := {
(** [parseInt(s)] *)
parseInt : string -> number;
(** [Date.parse(v)] on a value whose conversion to a string does not
    throw: the time value in milliseconds, [None] for NaN.  The conversion
    throws on an object with a [toString] of its own and on an array that
    holds one; the validation asks [ToString_throws] before it comes
    here *)
Date_parse : jsval -> option Z;
(** the time value of [new Date(v)], [None] for an invalid date, on a
    value whose conversion does not throw; the statements on sorted
    answers are about records whose dates are valid *)
Date_new : option jsval -> option Z;
(** [Number::toString(x, 10)] *)
Number_toString : number -> string
}.

Module JsDate.

(** [dateA - dateB] on two Date objects: the difference of their time
    values, NaN ([None]) when one of them is invalid.  The sorts only read
    the sign of the result, so the exact integer difference stands for
    its double, which has the same sign. *)
Definition sub (dateA dateB : option Z) : option Z :=
  match dateA, dateB with
  | Some ta, Some tb => Some (ta - tb)
  | _, _ => None
  end.

End JsDate.

(** ** The world of the server: data file, write fault, clock *)

Record world : Type := World {
(** the content of the data file when it holds an array of records,
    which is what [initDataFile] and [writeData] leave there; [None] when
    reading or parsing it fails.  A file edited by hand so that it parses
    to something else is outside the worlds described here.  After
    [writeData] this is the array handed to [JSON.stringify]; the text
    then denotes its image under [through_JSON], see [written] *)
disk : option (list obj);
(** the message of the error that [fs.writeFile] raises when it opens the
    file for writing, if it does; the file is then as it was.  A fault in
    the middle of the write, which leaves a truncated file, is outside the
    worlds described here *)
write_fault : option string;
(** the value that [Date.now()] returns *)
clock : Z
}.

Inductive outcome (A : Type) : Type :=
| Ok (a : A)
| Throw (message : string).
Arguments Ok {A} a.
Arguments Throw {A} message.

#[global] Instance outcome_ret : MRet outcome := fun A a => Ok a.
#[global] Instance outcome_bind : MBind outcome := fun A B k m =>
  match m with
  | Ok a => k a
  | Throw e => Throw e
  end.

(** Computations of the server: they read and change the world and either
    return or throw. *)
Definition M (A : Type) : Type := world -> outcome A * world.

#[global] Instance M_ret : MRet M := fun A a w => (Ok a, w).
#[global] Instance M_bind : MBind M := fun A B k m w =>
  match m w with
  | (Ok a, w') => k a w'
  | (Throw e, w') => (Throw e, w')
  end.

(** A computation that does not touch the world. *)
Definition lift {A : Type} (o : outcome A) : M A := fun w => (o, w).

Record response : Type := Response {
  status : nat;
  payload : jsval
}.

Record request : Type := Request {
(** [req.query], for query strings with plain string values *)
query : gmap string string;
(** [req.params.id] *)
params_id : string;
(** [req.body] *)
body : obj
}.

Record validation_result : Type := Validation {
  isValid : bool;
  errors : list string
}.

(** ** backend/server.js *)

Module Server.
Import JsValue.

Section Routes.
Context `{Host}.

(** [readData]: a failure to read or to parse the file is logged and an
    empty array is returned. *)
Definition readData : M (list obj) :=
  fun w =>
    match disk w with
    | Some data => (Ok data, w)
    | None => (Ok [], w)
    end.

(** [writeData]: the file is rewritten with the whole array; an error of
    [fs.writeFile] is logged and thrown again.  [disk] keeps the array as
    it is handed to [JSON.stringify(data, null, 2)]. *)
Definition writeData (data : list obj) : M unit :=
  fun w =>
    match write_fault w with
    | None => (Ok tt, World (Some data) (write_fault w) (clock w))
    | Some error => (Throw error, w)
    end.


(** [Date.now()]. *)
Definition Date_now : M number :=
  fun w => (Ok (JsNumber.of_Z (clock w)), w).

Definition validStatuses : list string :=
  ["Applied"; "Interview"; "Offer"; "Rejected"].

(** [validStatuses.includes(v)]. *)
Definition includes_status (v : option jsval) : bool :=
  existsb (fun s => strict_eq (Some (JStr s)) v) validStatuses.

(** [!v || typeof v !== 'string' || v.trim() === ''] *)
Definition text_missing (v : option jsval) : bool :=
  negb (ToBoolean v) ||
  match v with
  | Some (JStr s) => bool_decide (JsString.trim s = "")
  | _ => true
  end.

(** [Date.parse(v)]: the conversion of [v] to a string may throw; the
    engine's parser reads the string otherwise. *)
Definition Date_parse_call (v : jsval) : outcome (option Z) :=
  if ToString_throws v then Throw conversion_error else Ok (Date_parse v).

(** [!v || isNaN(Date.parse(v))] *)
Definition date_missing (v : option jsval) : outcome bool :=
  if negb (ToBoolean v) then Ok true
  else
    match v with
    | Some d => parsed ← Date_parse_call d; Ok (bool_decide (parsed = None))
    | None => Ok true
    end.

(** [!v || !validStatuses.includes(v)] *)
Definition status_missing (v : option jsval) : bool :=
  negb (ToBoolean v) || negb (includes_status v).

Definition company_message : string := "Company name is required".
Definition role_message : string := "Role is required".
Definition date_message : string := "Valid date is required".
Definition status_message : string :=
  "Status must be one of: Applied, Interview, Offer, Rejected".

(** [errors.push(message)] under [if (failed)]. *)
Definition push_if (failed : bool) (message : string) (errors : list string)
  : list string :=
  if failed then errors ++ [message] else errors.

Definition validateApplication (data : obj) : outcome validation_result :=
  let errors := [] in
  let errors := push_if (text_missing (data !! "company")) company_message errors in
  let errors := push_if (text_missing (data !! "role")) role_message errors in
  date_failed ← date_missing (data !! "date");
  let errors := push_if date_failed date_message errors in
  let errors := push_if (status_missing (data !! "status")) status_message errors in
  Ok {| isValid := bool_decide (length errors = 0%nat); errors := errors |}.

(** [validateApplication(data)] returns and its [isValid] is true: the
    body is let through by [if (!validation.isValid)]. *)
Definition passes (data : obj) : bool :=
  match validateApplication data with
  | Ok validation => isValid validation
  | Throw _ => false
  end.

(** [res.status(code).json(value)] *)
Definition json (code : nat) (value : jsval) : response :=
  {| status := code; payload := value |}.

(** [{ error: 'Validation failed', errors: validation.errors }] *)
Definition validation_failed (v : validation_result) : jsval :=
  JObj {[ "error" := JStr "Validation failed";
          "errors" := JArr (JStr <$> errors v) ]}.

(** [{ error: 'Application not found', id: req.params.id }] *)
Definition not_found (req : request) : jsval :=
  JObj {[ "error" := JStr "Application not found";
          "id" := JStr (params_id req) ]}.

(** The [try { ... } catch (error) { res.status(500).json(...) }] around
    the body of every route. *)
Definition route (failure : string) (handler : M response)
  : world -> response * world :=
  fun w =>
    match handler w with
    | (Ok res, w') => (res, w')
    | (Throw message, w') =>
        (json 500 (JObj {[ "error" := JStr failure;
                           "message" := JStr message ]}), w')
    end.

(** The comparator of the sort:
    [req.query.sort === 'asc' ? dateA - dateB : dateB - dateA]. *)
Definition compare_dates (sort : string) (a b : obj) : option Z :=
  let dateA := Date_new (a !! "date") in
  let dateB := Date_new (b !! "date") in
  if bool_decide (sort = "asc")
  then JsDate.sub dateA dateB
  else JsDate.sub dateB dateA.

(** [app.status === s] *)
Definition has_status (s : string) (app : obj) : bool :=
  strict_eq (app !! "status") (Some (JStr s)).

(** [a.id === id] *)
Definition has_id (id : number) (a : obj) : bool :=
  strict_eq (a !! "id") (Some (JNum id)).

(** GET /api/applications *)
Definition get_applications (req : request) : world -> response * world :=
  route "Failed to fetch applications" (
    applications ← readData;
    let applications :=
      match query req !! "status" with
      | Some s =>
          if negb (bool_decide (s = "")) && negb (bool_decide (s = "All"))
          then List.filter (has_status s) applications
          else applications
      | None => applications
      end in
    let applications :=
      match query req !! "sort" with
      | Some s =>
          if negb (bool_decide (s = ""))
          then JsArray.sort (compare_dates s) applications
          else applications
      | None => applications
      end in
    mret (json 200 (JArr (JObj <$> applications)))).

(** GET /api/applications/:id *)
Definition get_application (req : request) : world -> response * world :=
  route "Failed to fetch application" (
    applications ← readData;
    match List.find (has_id (parseInt (params_id req))) applications with
    | None => mret (json 404 (not_found req))
    | Some appData => mret (json 200 (JObj appData))
    end).

(** POST /api/applications *)
Definition post_application (req : request) : world -> response * world :=
  route "Failed to create application" (
    validation ← lift (validateApplication (body req));
    if negb (isValid validation)
    then mret (json 400 (validation_failed validation))
    else
      applications ← readData;
      now ← Date_now;
      let newApp := spread {[ "id" := JNum now ]} (body req) in
      let applications := applications ++ [newApp] in
      _ ← writeData applications;
      mret (json 201 (JObj newApp))).

(** PUT /api/applications/:id *)
Definition put_application (req : request) : world -> response * world :=
  route "Failed to update application" (
    validation ← lift (validateApplication (body req));
    if negb (isValid validation)
    then mret (json 400 (validation_failed validation))
    else
      applications ← readData;
      match JsArray.findIndex (has_id (parseInt (params_id req))) applications with
      | None => mret (json 404 (not_found req))
      | Some index =>
          let applications :=
            <[index := spread {[ "id" := JNum (parseInt (params_id req)) ]} (body req)]>
              applications in
          _ ← writeData applications;
          mret (json 200 (from_option JObj JNull (applications !! index)))
      end).

(** DELETE /api/applications/:id *)
Definition delete_application (req : request) : world -> response * world :=
  route "Failed to delete application" (
    applications ← readData;
    let filtered :=
      List.filter (fun a => negb (has_id (parseInt (params_id req)) a)) applications in
    if bool_decide (length filtered = length applications)
    then mret (json 404 (not_found req))
    else
      _ ← writeData filtered;
      mret (json 200 (JObj {[ "success" := JBool true;
                              "message" := JStr "Application deleted successfully";
                              "id" := JNum (parseInt (params_id req)) ]}))).

(** [applications.filter(a => a.status === s).length] *)
Definition count_status (s : string) (applications : list obj) : nat :=
  length (List.filter (has_status s) applications).

(** The [successRate] of the statistics. *)
Definition successRate (applications : list obj) : string :=
  if (0 <? length applications)%nat
  then
    JsNumber.toFixed Number_toString 2
      (JsNumber.mul
         (JsNumber.div (JsNumber.of_nat (count_status "Offer" applications))
                       (JsNumber.of_nat (length applications)))
         (JsNumber.of_Z 100))
    +:+ "%"
  else "0%".

(** GET /api/stats *)
Definition get_stats (req : request) : world -> response * world :=
  route "Failed to fetch statistics" (
    applications ← readData;
    let stats : obj :=
      {[ "total" := JNum (JsNumber.of_nat (length applications));
         "applied" := JNum (JsNumber.of_nat (count_status "Applied" applications));
         "interview" := JNum (JsNumber.of_nat (count_status "Interview" applications));
         "offer" := JNum (JsNumber.of_nat (count_status "Offer" applications));
         "rejected" := JNum (JsNumber.of_nat (count_status "Rejected" applications));
         "successRate" := JStr (successRate applications) ]} in
    mret (json 200 (JObj stats))).

End Routes.
End Server.

(** ** The client: the filter and sort effect of [App] *)

Module Client.
Import JsValue.

Section View.
Context `{Host}.

(** [v.toLowerCase()]: a TypeError unless [v] is a string. *)
Definition toLowerCase_of (v : option jsval) : outcome string :=
  match v with
  | Some (JStr s) => Ok (JsString.toLowerCase s)
  | _ => Throw "TypeError"
  end.

(** [app.company.toLowerCase().includes(searchTerm.toLowerCase()) ||
     app.role.toLowerCase().includes(searchTerm.toLowerCase())] *)
Definition matches_search (searchTerm : string) (app : obj) : outcome bool :=
  company ← toLowerCase_of (app !! "company");
  if JsString.includes company (JsString.toLowerCase searchTerm)
  then Ok true
  else
    role ← toLowerCase_of (app !! "role");
    Ok (JsString.includes role (JsString.toLowerCase searchTerm)).

(** [Array.prototype.filter] with a callback that may throw: the first
    exception ends the whole call. *)
Fixpoint filter_throwing {A : Type} (p : A -> outcome bool) (l : list A)
  : outcome (list A) :=
  match l with
  | [] => Ok []
  | x :: r =>
      keep ← p x;
      rest ← filter_throwing p r;
      Ok (if (keep : bool) then x :: rest else rest)
  end.

(** [app.status === filterStatus] *)
Definition has_status (filterStatus : string) (app : obj) : bool :=
  strict_eq (app !! "status") (Some (JStr filterStatus)).

(** [sortOrder === 'desc' ? dateB - dateA : dateA - dateB] *)
Definition compare_dates (sortOrder : string) (a b : obj) : option Z :=
  let dateA := Date_new (a !! "date") in
  let dateB := Date_new (b !! "date") in
  if bool_decide (sortOrder = "desc")
  then JsDate.sub dateB dateA
  else JsDate.sub dateA dateB.

(** The body of the effect: the value passed to [setFilteredApps], or
    the exception that escapes. *)
Definition filteredApps (apps : list obj) (filterStatus searchTerm sortOrder : string)
  : outcome (list obj) :=
  let filtered := apps in
  let filtered :=
    if negb (bool_decide (filterStatus = "All"))
    then List.filter (has_status filterStatus) filtered
    else filtered in
  filtered ← (if negb (bool_decide (searchTerm = ""))
              then filter_throwing (matches_search searchTerm) filtered
              else Ok filtered);
  Ok (JsArray.sort (compare_dates sortOrder) filtered).

End View.
End Client.

(** ** [sampleData] of [initDataFile], and an engine to run examples on *)

Module Sample.

Definition record (id : Z) (company role date status location notes : string) : obj :=
  {[ "id" := JNum (JsNumber.of_Z id);
     "company" := JStr company;
     "role" := JStr role;
     "date" := JStr date;
     "status" := JStr status;
     "location" := JStr location;
     "notes" := JStr notes ]}.

Definition sampleData : list obj :=
  [ record 1 "Google" "Senior Frontend Developer" "2026-01-10" "Interview"
      "Gurgaon,India"
      "Technical round scheduled for next week. Focus on system design and React architecture. Team seems great!";
    record 2 "Meta" "Full Stack Engineer Intern" "2026-01-08" "Applied"
      "Delhi,India"
      "Interesting AR/VR projects. Submitted portfolio showcasing React and Node.js work.";
    record 3 "Netflix" "Software Engineer" "2026-01-05" "Offer"
      "Ahmedabad,Gujarat"
      "Received offer! Great team culture and exciting streaming technology projects. Compensation package is competitive.";
    record 4 "Amazon" "SDE Intern" "2026-01-03" "Rejected"
      "Gurgaon,India"
      "Made it to final round but position filled. Good interview experience overall. Will apply again next cycle.";
    record 5 "Microsoft" "Cloud Engineer" "2026-01-12" "Applied"
      "Redmond, WA"
      "Azure platform team. Recruiter reached out via LinkedIn. Application submitted with referral." ].

End Sample.

(** An instance of [Host] for the concrete runs below.  It follows
    ECMAScript on the inputs those runs use: [parseInt] on any string,
    dates given as date-only strings [YYYY-MM-DD], as numbers, booleans or
    null.  Other date strings, whose reading ECMAScript leaves to the
    engine, and arrays and objects used as dates are taken as invalid, and
    [Number::toString] is only given for NaN, the infinities and zero. *)
Module Engine.

(** The value of a digit in the given radix. *)
Definition digit_of (radix : Z) (c : ascii) : option Z :=
  let n := Z.of_N (N_of_ascii c) in
  let d := if (48 <=? n) && (n <=? 57) then n - 48
           else if (97 <=? n) && (n <=? 122) then n - 87
           else if (65 <=? n) && (n <=? 90) then n - 55
           else radix in
  if d <? radix then Some d else None.

(** The longest prefix of digits, read in the radix; [None] when the
    prefix is empty. *)
Fixpoint read_digits (radix : Z) (s : string) (acc : option Z) : option Z :=
  match s with
  | EmptyString => acc
  | String c r =>
      match digit_of radix c with
      | Some d => read_digits radix r (Some (default 0 acc * radix + d))
      | None => acc
      end
  end.

Definition strip_hex (s : string) : option string :=
  match s with
  | String "0" (String "x" r) | String "0" (String "X" r) => Some r
  | _ => None
  end.

Definition parseInt (input : string) : number :=
  let s := JsString.trimStart input in
  let (negative, s) :=
    match s with
    | String "-" r => (true, r)
    | String "+" r => (false, r)
    | _ => (false, s)
    end in
  let (radix, s) :=
    match strip_hex s with
    | Some r => (16, r)
    | None => (10, s)
    end in
  match read_digits radix s None with
  | None => JsNumber.NaN
  | Some 0 => S754_zero negative
  | Some z => JsNumber.of_Z (if negative then - z else z)
  end.

Definition days_in_month (y m : Z) : Z :=
  if (m =? 2) then
    (if ((y mod 4 =? 0) && negb (y mod 100 =? 0)) || (y mod 400 =? 0) then 29 else 28)
  else if (m =? 4) || (m =? 6) || (m =? 9) || (m =? 11) then 30
  else 31.

(** Days from 1970-01-01 to the given day of the proleptic Gregorian
    calendar. *)
Definition days_from_civil (y m d : Z) : Z :=
  let y' := if m <=? 2 then y - 1 else y in
  let era := y' / 400 in
  let yoe := y' - era * 400 in
  let mp := (m + 9) mod 12 in
  let doy := (153 * mp + 2) / 5 + d - 1 in
  let doe := yoe * 365 + yoe / 4 - yoe / 100 + doy in
  era * 146097 + doe - 719468.

Definition all_digits (s : string) : option Z :=
  if forallb (fun c => bool_decide (is_Some (digit_of 10 c))) (list_ascii_of_string s)
  then read_digits 10 s None
  else None.

(** The date-only form [YYYY-MM-DD] of the date time string format, read
    as UTC midnight. *)
Definition parse_date_only (s : string) : option Z :=
  if negb (bool_decide (String.length s = 10%nat)) then None
  else if negb (bool_decide (substring 4 1 s = "-" ∧ substring 7 1 s = "-")) then None
  else
    y ← all_digits (substring 0 4 s);
    m ← all_digits (substring 5 2 s);
    d ← all_digits (substring 8 2 s);
    if (1 <=? m) && (m <=? 12) && (1 <=? d) && (d <=? days_in_month y m)
    then Some (days_from_civil y m d * 86400000)
    else None.

(** TimeClip of a number. *)
Definition time_clip (x : number) : option Z :=
  match x with
  | S754_zero _ => Some 0
  | S754_finite s m e =>
      let t := if 0 <=? e then Z.pos m * 2 ^ e else Z.pos m / 2 ^ (- e) in
      if t <=? 8640000000000000 then Some (if s then - t else t) else None
  | _ => None
  end.

Definition Date_parse (v : jsval) : option Z :=
  match v with
  | JStr s => parse_date_only s
  | _ => None
  end.

Definition Date_new (v : option jsval) : option Z :=
  match v with
  | Some (JStr s) => parse_date_only s
  | Some (JNum x) => time_clip x
  | Some (JBool b) => Some (if b then 1 else 0)
  | Some JNull => Some 0
  | _ => None
  end.

Definition Number_toString (x : number) : string :=
  match x with
  | S754_nan => "NaN"
  | S754_infinity s => if s then "-Infinity" else "Infinity"
  | S754_zero _ => "0"
  | S754_finite _ _ _ => ""
  end.

#[global] Instance host : Host :=
  Build_Host parseInt Date_parse Date_new Number_toString.

End Engine.

(** ** The specification's own words

    Predicates that follow the wording of the specification, to be compared
    with what the code computes. *)

Module Stated.
Import JsValue.

(** "[l'] is [l] narrowed to the records that satisfy [P]". *)
Inductive narrowed {A : Type} (P : A -> Prop) : list A -> list A -> Prop :=
| narrowed_nil : narrowed P [] []
| narrowed_keep x l l' : P x -> narrowed P l l' -> narrowed P (x :: l) (x :: l')
| narrowed_drop x l l' : ~ P x -> narrowed P l l' -> narrowed P (x :: l) l'.

(** The comparator [cmp] is the difference of the integer keys of its
    arguments on the elements of [l]. *)
Definition keyed {A : Type} (cmp : A -> A -> option Z) (key : A -> Z)
  (l : list A) : Prop :=
  forall x y, x ∈ l -> y ∈ l -> cmp x y = Some (key x - key y).

(** "[s] contains [t] as a case-insensitive substring": a substring of
    [s] equals [t] up to the case of its letters. *)
Definition contains_ci (s t : string) : Prop :=
  exists pre u post,
    s = pre +:+ u +:+ post /\
    JsString.toLowerCase u = JsString.toLowerCase t.



(** "one of the four enumerated values" *)
Definition enumerated_status (v : option jsval) : Prop :=
  v = Some (JStr "Applied") \/ v = Some (JStr "Interview") \/
  v = Some (JStr "Offer") \/ v = Some (JStr "Rejected").

Section WithHost.
Context `{Host}.





(** "Create returns 201 with the created record carrying a freshly
    assigned id that is not the id of any record already present, and
    appends the record." *)
Definition create_id_is_new (req : request) (w : world) (apps : list obj) : Prop :=
  disk w = Some apps ->
  write_fault w = None ->
  Server.passes (body req) = true ->
  exists newApp,
    Server.post_application req w =
      (Server.json 201 (JObj newApp),
       World (Some (apps ++ [newApp])) None (clock w)) /\
    Forall (fun a => a !! "id" <> newApp !! "id") apps.



(** "If reading the data file fails, the server responds with status
    500; List, Get and Stats surface an I/O error." *)
Definition read_failure_surfaces (req : request) (w : world) : Prop :=
  disk w = None ->
  status (fst (Server.get_applications req w)) = 500%nat /\
  status (fst (Server.get_application req w)) = 500%nat /\
  status (fst (Server.get_stats req w)) = 500%nat.

(** The time value of a record's date, 0 when the date is invalid. *)
Definition time_of (a : obj) : Z := default 0 (Date_new (a !! "date")).

(** "the record has a valid date" *)
Definition dated (a : obj) : Prop := is_Some (Date_new (a !! "date")).

(** "ordered by date ascending" / "descending (newest first)" *)
Definition ascending (l : list obj) : Prop :=
  StronglySorted (fun a b => time_of a <= time_of b) l.
Definition descending (l : list obj) : Prop :=
  StronglySorted (fun a b => time_of b <= time_of a) l.

(** The records of one date keep the order they had in [l]. *)
Definition same_order_within_dates (l l' : list obj) : Prop :=
  forall t, List.filter (fun a => time_of a =? t) l' =
            List.filter (fun a => time_of a =? t) l.

(** [l'] is [l] sorted by date in the given direction. *)
Definition sorted_by_date (asc : bool) (l l' : list obj) : Prop :=
  l' ≡ₚ l /\
  (if asc then ascending l' else descending l') /\
  same_order_within_dates l l'.

(** "List with no sort parameter returns the records ordered by date
    descending (newest first)." *)
Definition list_defaults_to_descending (req : request) (w : world)
  (apps : list obj) : Prop :=
  disk w = Some apps ->
  query req !! "sort" = None ->
  exists view,
    fst (Server.get_applications req w) =
      Server.json 200 (JArr (JObj <$> view)) /\
    descending view.

End WithHost.

(** "the record matches the status filter" *)
Definition status_is (s : string) (a : obj) : Prop :=
  a !! "status" = Some (JStr s).

(** "the record's company or role contains the search term" *)
Definition company_or_role_contains (term : string) (a : obj) : Prop :=
  (exists c, a !! "company" = Some (JStr c) /\ contains_ci c term) \/
  (exists r, a !! "role" = Some (JStr r) /\ contains_ci r term).

(** The record type of the data model as far as the client reads it:
    [company] and [role] are strings. *)
Definition typed_record (a : obj) : Prop :=
  is_string (a !! "company") = true /\ is_string (a !! "role") = true.


End Stated.


(** ** Inputs of the concrete runs *)

Module Runs.

(** The record of the specification's end-to-end example. *)
Definition acme : obj :=
  {[ "company" := JStr "Acme";
     "role" := JStr "SWE";
     "date" := JStr "2026-02-01";
     "status" := JStr "Applied" ]}.

(** The data file as [initDataFile] creates it, at 2026-02-01T10:00:00Z. *)
Definition initial : world :=
  World (Some Sample.sampleData) None 1769940000000.

(** An empty data file at the same instant. *)
Definition empty : world := World (Some []) None 1769940000000.

(** A data file that cannot be read. *)
Definition unreadable : world := World None None 1769940000000.

(** GET /api/applications *)
Definition list_all : request := Request ∅ "" ∅.

(** GET /api/applications?sort=asc *)
Definition list_ascending : request := Request {[ "sort" := "asc" ]} "" ∅.

(** POST /api/applications with the example record. *)
Definition create_acme : request := Request ∅ "" acme.

(** POST /api/applications with an empty body. *)
Definition create_nothing : request := Request ∅ "" ∅.

(** POST /api/applications with a company made of three spaces. *)
Definition create_blank_company : request :=
  Request ∅ "" (<[ "company" := JStr "   " ]> acme).

(** PUT /api/applications/1 with a body that carries the id 99. *)
Definition update_1_as_99 : request :=
  Request ∅ "1" (<[ "id" := JNum (JsNumber.of_Z 99) ]> acme).


(** PUT /api/applications/42: no record has this id. *)
Definition update_42 : request := Request ∅ "42" acme.



End Runs.

(** ** The rest of the client: sort toggle, form and status timeline *)

Module Form.
Import JsValue.

(** The state of [App] that the form reads and writes. *)
Record state : Type := State {
  showModal : bool;
(** [editingApp]; [None] is [null] *)
editingApp : option obj;
formData : obj
}.

(** The call to [api] that a handler issues. *)
Inductive call : Type :=
| createApplication (app : obj)
| updateApplication (id : option jsval) (app : obj)
| deleteApplication (id : option jsval).

(** The form of a new application; [today] is
    [new Date().toISOString().split('T')[0]]. *)
Definition blank (today : string) : obj :=
  {[ "company" := JStr "";
     "role" := JStr "";
     "date" := JStr today;
     "status" := JStr "Applied";
     "location" := JStr "";
     "notes" := JStr "" ]}.

(** [openModal(app)]; [None] is the default [null]. *)
Definition openModal (today : string) (app : option obj) (st : state) : state :=
  match app with
  | Some a => {| showModal := true; editingApp := Some a; formData := a |}
  | None => {| showModal := true; editingApp := None; formData := blank today |}
  end.

Definition closeModal (st : state) : state :=
  {| showModal := false; editingApp := None; formData := formData st |}.

(** The inputs of the form. *)
Inductive field : Type := company | role | date | status | location | notes.

Definition field_name (f : field) : string :=
  match f with
  | company => "company"
  | role => "role"
  | date => "date"
  | status => "status"
  | location => "location"
  | notes => "notes"
  end.

(** [onChange] of an input: [setFormData({ ...formData, f: e.target.value })]. *)
Definition onChange (f : field) (value : string) (st : state) : state :=
  {| showModal := showModal st;
     editingApp := editingApp st;
     formData := spread (formData st) {[ field_name f := JStr value ]} |}.

(** A sequence of [onChange] events, the first of the list first. *)
Definition edit (changes : list (field * string)) (st : state) : state :=
  foldl (fun st change => onChange (fst change) (snd change) st) st changes.

(** [handleSubmit]: the call that is issued, if any, and the next state. *)
Definition handleSubmit (st : state) : option call * state :=
  if negb (ToBoolean (formData st !! "company"))
     || negb (ToBoolean (formData st !! "role"))
     || negb (ToBoolean (formData st !! "date"))
  then (None, st)
  else
    (Some match editingApp st with
          | Some app => updateApplication (app !! "id") (formData st)
          | None => createApplication (formData st)
          end,
     closeModal st).

(** [handleDelete(id)]; [confirmed] is the answer of [window.confirm]. *)
Definition handleDelete (confirmed : bool) (id : option jsval) : option call :=
  if confirmed then Some (deleteApplication id) else None.

(** The sort toggle: [sortOrder === 'desc' ? 'asc' : 'desc']. *)
Definition toggleSort (sortOrder : string) : string :=
  if bool_decide (sortOrder = "desc") then "asc" else "desc".

End Form.

Module Timeline.

Definition statuses : list string := ["Applied"; "Interview"; "Offer"].
Definition rejectedStatuses : list string := ["Applied"; "Interview"; "Rejected"].

(** [Array.prototype.indexOf] on strings, -1 when absent. *)
Fixpoint indexOf (l : list string) (s : string) : Z :=
  match l with
  | [] => -1
  | x :: r =>
      if bool_decide (x = s) then 0
      else let i := indexOf r s in if i <? 0 then -1 else i + 1
  end.

Definition timeline (currentStatus : string) : list string :=
  if bool_decide (currentStatus = "Rejected") then rejectedStatuses else statuses.

Definition currentIndex (currentStatus : string) : Z :=
  indexOf (timeline currentStatus) currentStatus.

(** [isActive] of the node at [index]: [index <= currentIndex]. *)
Definition isActive (currentStatus : string) (index : nat) : bool :=
  Z.of_nat index <=? currentIndex currentStatus.

End Timeline.

(** ** [initDataFile] *)

Module Boot.

(** The data file as [fs.access] sees it. *)
Inductive data_file : Type :=
| Inaccessible
| Accessible (content : option (list obj)).

(** What [readData] would parse from the file. *)
Definition content_of (f : data_file) : option (list obj) :=
  match f with
  | Inaccessible => None
  | Accessible content => content
  end.

(** [initDataFile]; [fault] is the error that [fs.mkdir] or
    [fs.writeFile] raises, if one does. *)
Definition initDataFile (fault : option string) (f : data_file) : outcome data_file :=
  match f with
  | Accessible _ => Ok f
  | Inaccessible =>
      match fault with
      | None => Ok (Accessible (Some Sample.sampleData))
      | Some error => Throw error
      end
  end.

End Boot.

(** ** Predicates for the further properties *)

Module Invariant.
Section WithHost.
Context `{Host}.

(** The collection that [readData] returns in a world. *)
Definition stored (w : world) : list obj := default [] (disk w).

(** Every record of the data file passes [validateApplication]. *)
Definition validated (w : world) : Prop :=
  Forall (fun a => Server.passes a = true) (stored w).

End WithHost.
End Invariant.

(** ** Inputs of the further runs *)

Module Probe.

(** The third record of the sample data. *)
Definition netflix : obj :=
  Sample.record 3 "Netflix" "Software Engineer" "2026-01-05" "Offer"
    "Ahmedabad,Gujarat"
    "Received offer! Great team culture and exciting streaming technology projects. Compensation package is competitive.".

(** A request on /api/applications/3 without a body (GET, DELETE). *)
Definition at_3 : request := Request ∅ "3" ∅.

(** A request on /api/applications/42 without a body. *)
Definition at_42 : request := Request ∅ "42" ∅.

(** GET /api/applications/1769940000000, the reading of the clock of
    [Runs.initial]. *)
Definition at_clock : request := Request ∅ "1769940000000" ∅.

(** PUT /api/applications/3 with the example record, which has no id. *)
Definition update_3 : request := Request ∅ "3" Runs.acme.

(** The initial data file on a disk that refuses the write. *)
Definition read_only : world :=
  World (Some Sample.sampleData) (Some "EACCES: permission denied") 1769940000000.

(** A record without a company. *)
Definition nameless : obj :=
  {[ "role" := JStr "SWE"; "date" := JStr "2026-02-01"; "status" := JStr "Applied" ]}.

(** The state of the form before it is opened. *)
Definition closed : Form.state :=
  {| Form.showModal := false; Form.editingApp := None;
     Form.formData := Form.blank "2026-02-01" |}.

(** The Netflix record opened and its status set to "Rejected". *)
Definition editing_netflix : Form.state :=
  Form.edit [(Form.status, "Rejected")] (Form.openModal "2026-02-01" (Some netflix) closed).

(** A new application typed in: company and role. *)
Definition typing_acme : Form.state :=
  Form.edit [(Form.company, "Acme"); (Form.role, "SWE")]
    (Form.openModal "2026-02-01" None closed).

End Probe.

(** * Properties *)

(** ** Arrays *)

Section ArrayFacts.
Context {A : Type}.
Implicit Types (l : list A) (p : A -> bool) (cmp : A -> A -> option Z).

Lemma findIndex_Some p l i :
  JsArray.findIndex p l = Some i ->
  exists x, l !! i = Some x /\ p x = true.
Proof.
  revert i. induction l as [|y l IH]; intros i; simpl; [done|].
  destruct (p y) eqn:Hy.
  - intros [= <-]. eauto.
  - destruct (JsArray.findIndex p l) as [j|]; simpl; [|done].
    intros [= <-]. simpl. eauto.
Qed.

Lemma findIndex_None p l :
  JsArray.findIndex p l = None <-> Forall (fun x => p x = false) l.
Proof.
  induction l as [|y l IH]; simpl.
  - split; [constructor|done].
  - destruct (p y) eqn:Hy.
    + split; [done|]. intros Hall. inversion Hall; congruence.
    + destruct (JsArray.findIndex p l); simpl.
      * split; [done|]. intros Hall. apply Forall_cons in Hall as [_ Hall].
        by apply IH in Hall.
      * split; [|done]. intros _. constructor; [done|]. by apply IH.
Qed.

Lemma find_none_iff p l :
  List.find p l = None <-> Forall (fun x => p x = false) l.
Proof.
  induction l as [|y l IH]; simpl.
  - split; [constructor|done].
  - destruct (p y) eqn:Hy.
    + split; [done|]. intros Hall. inversion Hall; congruence.
    + rewrite IH. split.
      * by constructor.
      * intros Hall. by inversion Hall.
Qed.

Lemma filter_all_true p l :
  Forall (fun x => p x = true) l -> List.filter p l = l.
Proof.
  induction 1 as [|x l Hx _ IH]; simpl; [done|]. by rewrite Hx, IH.
Qed.

Lemma sort_insert_perm cmp x l : JsArray.sort_insert cmp x l ≡ₚ x :: l.
Proof.
  induction l as [|y l IH]; simpl; [done|].
  destruct (0 <? JsArray.sort_order cmp x y); [|done].
  rewrite IH. apply perm_swap.
Qed.

Lemma sort_perm cmp l : JsArray.sort cmp l ≡ₚ l.
Proof.
  induction l as [|x l IH]; simpl; [done|].
  fold (JsArray.sort cmp l). by rewrite sort_insert_perm, IH.
Qed.

(** On a list whose comparator is the difference of integer keys, the
    sort returns a sorted list and keeps elements of equal key in order. *)
Section Keyed.
Variables (cmp : A -> A -> option Z) (key : A -> Z).

Lemma keyed_tail x l : Stated.keyed cmp key (x :: l) -> Stated.keyed cmp key l.
Proof. intros Hk a b Ha Hb. apply Hk; apply elem_of_cons; auto. Qed.

Lemma keyed_head x y l :
  Stated.keyed cmp key (x :: l) -> y ∈ l -> cmp x y = Some (key x - key y).
Proof. intros Hk Hy. apply Hk; apply elem_of_cons; auto. Qed.

Lemma keyed_skip x y l :
  Stated.keyed cmp key (x :: y :: l) -> Stated.keyed cmp key (x :: l).
Proof.
  intros Hk a b Ha Hb.
  apply Hk; rewrite !elem_of_cons; apply elem_of_cons in Ha, Hb; tauto.
Qed.

Lemma keyed_perm l l' : l ≡ₚ l' -> Stated.keyed cmp key l -> Stated.keyed cmp key l'.
Proof. intros Hp Hk a b Ha Hb. apply Hk; by rewrite Hp. Qed.

Lemma sort_insert_sorted x l :
  Stated.keyed cmp key (x :: l) ->
  StronglySorted (fun a b => key a <= key b) l ->
  StronglySorted (fun a b => key a <= key b) (JsArray.sort_insert cmp x l).
Proof.
  intros Hk Hs. induction Hs as [|y l Hs IH Hall]; simpl.
  - repeat constructor.
  - unfold JsArray.sort_order.
    rewrite (keyed_head x y _ Hk) by (apply elem_of_cons; auto). simpl.
    destruct (0 <? key x - key y) eqn:Hlt.
    + apply Z.ltb_lt in Hlt. constructor.
      * apply IH. by eapply keyed_skip.
      * rewrite sort_insert_perm. constructor; [lia|done].
    + apply Z.ltb_ge in Hlt. constructor; [by constructor|].
      constructor; [lia|].
      eapply Forall_impl; [exact Hall|]. intros; simpl in *. lia.
Qed.

Lemma sort_sorted l :
  Stated.keyed cmp key l ->
  StronglySorted (fun a b => key a <= key b) (JsArray.sort cmp l).
Proof.
  induction l as [|x l IH]; intros Hk; simpl; [constructor|].
  fold (JsArray.sort cmp l). apply sort_insert_sorted.
  - eapply keyed_perm; [|exact Hk]. by rewrite sort_perm.
  - apply IH. by eapply keyed_tail.
Qed.

Lemma sort_insert_stable x l t :
  Stated.keyed cmp key (x :: l) ->
  List.filter (fun a => key a =? t) (JsArray.sort_insert cmp x l) =
  List.filter (fun a => key a =? t) (x :: l).
Proof.
  intros Hk. induction l as [|y l IH]; [done|].
  cbn [JsArray.sort_insert]. unfold JsArray.sort_order.
  rewrite (keyed_head x y _ Hk) by (apply elem_of_cons; auto). cbn [default from_option id].
  destruct (0 <? key x - key y) eqn:Hlt; [|done].
  apply Z.ltb_lt in Hlt.
  cbn [List.filter]. rewrite IH.
  - cbn [List.filter].
    destruct (key x =? t) eqn:Hx, (key y =? t) eqn:Hy; try done.
    apply Z.eqb_eq in Hx, Hy. lia.
  - by eapply keyed_skip.
Qed.

Lemma sort_stable l t :
  Stated.keyed cmp key l ->
  List.filter (fun a => key a =? t) (JsArray.sort cmp l) =
  List.filter (fun a => key a =? t) l.
Proof.
  induction l as [|x l IH]; intros Hk; [done|].
  cbn [JsArray.sort foldr]. fold (JsArray.sort cmp l).
  rewrite sort_insert_stable.
  - cbn [List.filter]. by rewrite IH by (by eapply keyed_tail).
  - eapply keyed_perm; [|exact Hk]. by rewrite sort_perm.
Qed.

End Keyed.
End ArrayFacts.

(** ** Strings *)

Section StringFacts.
Implicit Types s t : string.

Lemma prefix_inv t s :
  String.prefix t s = true <-> exists post, s = t +:+ post.
Proof.
  revert s. induction t as [|c t IH]; intros s.
  - split; [intros _; by exists s|]. by destruct s.
  - destruct s as [|d s]; simpl.
    + split; [done|]. by intros [post ?].
    + destruct (ascii_dec c d) as [->|Hne].
      * rewrite IH. split; intros [post Hp]; exists post.
        -- by rewrite Hp.
        -- by injection Hp.
      * split; [done|]. intros [post Hp]. injection Hp. congruence.
Qed.

Lemma includes_inv s t :
  JsString.includes s t = true <-> exists pre post, s = pre +:+ t +:+ post.
Proof.
  induction s as [|c s IH]; cbn [JsString.includes].
  - rewrite orb_false_r, prefix_inv. split.
    + intros [post Hp]. by exists "", post.
    + intros (pre & post & Hp). destruct pre; [by exists post|done].
  - rewrite orb_true_iff, prefix_inv, IH. split.
    + intros [[post Hp]|(pre & post & Hp)].
      * by exists "", post.
      * exists (String c pre), post. simpl. by rewrite Hp.
    + intros (pre & post & Hp). destruct pre as [|d pre]; simpl in Hp.
      * left. by exists post.
      * right. injection Hp as -> Hp. by exists pre, post.
Qed.

Lemma toLowerCase_app s t :
  JsString.toLowerCase (s +:+ t) = JsString.toLowerCase s +:+ JsString.toLowerCase t.
Proof. induction s as [|c s IH]; simpl; [done|]. by rewrite IH. Qed.

Lemma toLowerCase_split s x y :
  JsString.toLowerCase s = x +:+ y ->
  exists a b, s = a +:+ b /\
              JsString.toLowerCase a = x /\ JsString.toLowerCase b = y.
Proof.
  revert s. induction x as [|c x IH]; intros s Hs.
  - by exists "", s.
  - destruct s as [|d s]; simpl in Hs; [done|].
    injection Hs as Hc Hs. destruct (IH s Hs) as (a & b & -> & Ha & Hb).
    exists (String d a), b. simpl. by rewrite Hc, Ha.
Qed.

(** The test of the client is the case-insensitive containment of the
    specification. *)
Lemma includes_toLowerCase s t :
  JsString.includes (JsString.toLowerCase s) (JsString.toLowerCase t) = true
  <-> Stated.contains_ci s t.
Proof.
  rewrite includes_inv. split.
  - intros (pre & post & Hs).
    apply toLowerCase_split in Hs as (a & r & -> & Ha & Hr).
    apply toLowerCase_split in Hr as (u & b & -> & Hu & Hb).
    by exists a, u, b.
  - intros (pre & u & post & -> & Hu).
    exists (JsString.toLowerCase pre), (JsString.toLowerCase post).
    by rewrite !toLowerCase_app, Hu.
Qed.

Lemma trimEnd_empty_whitespace s :
  JsString.trimEnd s = "" ->
  forallb JsString.isWhiteSpace (list_ascii_of_string s) = true.
Proof.
  induction s as [|c s IH]; simpl; [done|].
  destruct (JsString.trimEnd s); [|done].
  destruct (JsString.isWhiteSpace c); [|done]. intros _. by apply IH.
Qed.

End StringFacts.

(** ** Values *)

Section ValueFacts.
Import JsValue.

Lemma strict_eq_string v s :
  strict_eq v (Some (JStr s)) = true <-> v = Some (JStr s).
Proof.
  destruct v as [[]|]; simpl; try (split; [done|congruence]).
  rewrite bool_decide_eq_true. split; congruence.
Qed.

Lemma strict_eq_string_l v s :
  strict_eq (Some (JStr s)) v = true <-> v = Some (JStr s).
Proof.
  destruct v as [[]|]; simpl; try (split; [done|congruence]).
  rewrite bool_decide_eq_true. split; congruence.
Qed.

Lemma spread_lookup_source (target source : obj) k v :
  source !! k = Some v -> spread target source !! k = Some v.
Proof. intros Hk. unfold spread. by apply lookup_union_Some_l. Qed.

Lemma spread_lookup_target (target source : obj) k :
  source !! k = None -> spread target source !! k = target !! k.
Proof. intros Hk. unfold spread. by apply lookup_union_r. Qed.


End ValueFacts.

(** ** Narrowing *)

Section NarrowFacts.
Context {A : Type}.
Implicit Types (l : list A) (p : A -> bool) (P Q : A -> Prop).

Lemma narrowed_filter P p l :
  (forall x, x ∈ l -> p x = true <-> P x) ->
  Stated.narrowed P l (List.filter p l).
Proof.
  induction l as [|x l IH]; intros Hp; simpl; [constructor|].
  assert (Stated.narrowed P l (List.filter p l)) as Hl.
  { apply IH. intros y Hy. apply Hp, elem_of_cons. auto. }
  destruct (p x) eqn:Hx.
  - apply Stated.narrowed_keep; [|done]. apply Hp; [apply elem_of_cons; auto|done].
  - apply Stated.narrowed_drop; [|done]. intros HP.
    apply Hp in HP; [congruence|apply elem_of_cons; auto].
Qed.

Lemma narrowed_all P l : (forall x, x ∈ l -> P x) -> Stated.narrowed P l l.
Proof.
  induction l as [|x l IH]; intros Hp; [constructor|].
  apply Stated.narrowed_keep.
  - apply Hp, elem_of_cons. auto.
  - apply IH. intros y Hy. apply Hp, elem_of_cons. auto.
Qed.

Lemma narrowed_elem P l l' x : Stated.narrowed P l l' -> x ∈ l' -> x ∈ l.
Proof.
  induction 1 as [|y l l' Hy Hn IH|y l l' Hy Hn IH]; intros Hx; [done| |].
  - apply elem_of_cons in Hx as [->|Hx]; apply elem_of_cons; auto.
  - apply elem_of_cons; auto.
Qed.

Lemma narrowed_twice P Q l l1 l2 :
  Stated.narrowed P l l1 -> Stated.narrowed Q l1 l2 ->
  Stated.narrowed (fun x => P x /\ Q x) l l2.
Proof.
  intros H1. revert l2. induction H1 as [|x l l1 Hx Hn IH|x l l1 Hx Hn IH]; intros l2 H2.
  - inversion H2; subst. constructor.
  - inversion H2; subst.
    + apply Stated.narrowed_keep; [done|]. by apply IH.
    + apply Stated.narrowed_drop; [tauto|]. by apply IH.
  - apply Stated.narrowed_drop; [tauto|]. by apply IH.
Qed.

(** Narrowing determines its result. *)
Lemma narrowed_unique P l l1 l2 :
  Stated.narrowed P l l1 -> Stated.narrowed P l l2 -> l1 = l2.
Proof.
  intros H1. revert l2. induction H1 as [|x l l1 Hx Hn IH|x l l1 Hx Hn IH];
    intros l2 H2; inversion H2; subst; try done.
  - f_equal. by apply IH.
  - by apply IH.
Qed.

End NarrowFacts.

(** ** Validation *)

Section ValidationFacts.
Context `{Host}.
Import JsValue Server.

Lemma trim_empty : JsString.trim "" = "".
Proof. reflexivity. Qed.





Lemma includes_status_true v :
  includes_status v = true <-> Stated.enumerated_status v.
Proof.
  unfold includes_status, validStatuses, Stated.enumerated_status.
  cbn [existsb]. rewrite !orb_true_iff, !strict_eq_string_l. intuition congruence.
Qed.

Lemma status_missing_false v :
  status_missing v = false <-> Stated.enumerated_status v.
Proof.
  unfold status_missing.
  rewrite orb_false_iff, !negb_false_iff, includes_status_true. split; [tauto|].
  intros Hs. split; [|done].
  destruct Hs as [-> | [-> | [-> | ->]]]; reflexivity.
Qed.


Lemma validateApplication_date data :
  validateApplication data =
    match date_missing (data !! "date") with
    | Ok date_failed =>
        Ok {| isValid :=
                bool_decide
                  (length
                     (push_if (status_missing (data !! "status")) status_message
                        (push_if date_failed date_message
                           (push_if (text_missing (data !! "role")) role_message
                              (push_if (text_missing (data !! "company"))
                                 company_message [])))) = 0%nat);
              errors :=
                push_if (status_missing (data !! "status")) status_message
                  (push_if date_failed date_message
                     (push_if (text_missing (data !! "role")) role_message
                        (push_if (text_missing (data !! "company"))
                           company_message []))) |}
    | Throw e => Throw e
    end.
Proof. unfold validateApplication. by destruct (date_missing (data !! "date")). Qed.



Lemma validateApplication_isValid data result :
  validateApplication data = Ok result ->
  isValid result = true <-> errors result = [].
Proof.
  rewrite validateApplication_date.
  destruct (date_missing (data !! "date")) as [failed|]; [|done].
  intros [= <-]. cbn [errors isValid]. rewrite bool_decide_eq_true.
  apply length_zero_iff_nil.
Qed.

Lemma passes_Ok data :
  passes data = true <->
  exists result, validateApplication data = Ok result /\ isValid result = true.
Proof.
  unfold passes. destruct (validateApplication data) as [result|e].
  - split; [by exists result|]. by intros (r & [= <-] & ?).
  - split; [done|]. by intros (r & ? & _).
Qed.

Lemma validateApplication_valid_iff data :
  passes data = true <->
  text_missing (data !! "company") = false /\
  text_missing (data !! "role") = false /\
  date_missing (data !! "date") = Ok false /\
  status_missing (data !! "status") = false.
Proof.
  unfold passes. rewrite validateApplication_date.
  destruct (date_missing (data !! "date")) as [failed|e];
    [|split; [done|intros (_ & _ & ? & _); done]].
  cbn [isValid]. rewrite bool_decide_eq_true. unfold push_if.
  destruct (text_missing (data !! "company")), (text_missing (data !! "role")),
    failed, (status_missing (data !! "status"));
    simpl; split; try done; intros (? & ? & ? & ?); done.
Qed.


End ValidationFacts.

(** ** Sorting by date *)

Section DateFacts.
Context `{Host}.

Lemma StronglySorted_weaken {A : Type} (R R' : A -> A -> Prop) (l : list A) :
  (forall x y, R x y -> R' x y) -> StronglySorted R l -> StronglySorted R' l.
Proof.
  intros HR. induction 1 as [|x l Hs IH Hall]; constructor; [done|].
  eapply Forall_impl; [exact Hall|]. intros y. apply HR.
Qed.

Lemma date_sub_dated a b :
  Stated.dated a -> Stated.dated b ->
  JsDate.sub (Date_new (a !! "date")) (Date_new (b !! "date")) =
  Some (Stated.time_of a - Stated.time_of b).
Proof.
  unfold Stated.dated, Stated.time_of. by intros [ta ->] [tb ->].
Qed.

(** A sort whose comparator subtracts the dates in the given direction
    sorts by date, provided every date is valid. *)
Lemma sort_sorts_by_date (cmp : obj -> obj -> option Z) (asc : bool) (l : list obj) :
  Forall Stated.dated l ->
  (forall a b, cmp a b =
     if asc
     then JsDate.sub (Date_new (a !! "date")) (Date_new (b !! "date"))
     else JsDate.sub (Date_new (b !! "date")) (Date_new (a !! "date"))) ->
  Stated.sorted_by_date asc l (JsArray.sort cmp l).
Proof.
  intros Hd Hcmp. rewrite Forall_forall in Hd.
  split; [apply sort_perm|]. destruct asc.
  - assert (Stated.keyed cmp Stated.time_of l) as Hk.
    { intros a b Ha Hb. rewrite Hcmp. apply date_sub_dated; apply Hd; done. }
    split.
    + by apply sort_sorted.
    + intros t. by apply sort_stable.
  - assert (Stated.keyed cmp (fun a => - Stated.time_of a) l) as Hk.
    { intros a b Ha Hb. rewrite Hcmp, date_sub_dated by (apply Hd; done).
      f_equal. lia. }
    split.
    + eapply StronglySorted_weaken; [|apply (sort_sorted _ _ _ Hk)].
      intros a b; simpl. lia.
    + intros t. pose proof (sort_stable _ _ _ (- t) Hk) as Hs.
      erewrite (filter_ext _ (fun a => - Stated.time_of a =? - t)),
        (filter_ext (fun a => Stated.time_of a =? t)
                    (fun a => - Stated.time_of a =? - t)); [exact Hs| |];
        intros a; apply eq_iff_eq_true; rewrite !Z.eqb_eq; lia.
Qed.

End DateFacts.

(** ** Running the routes *)

Section RouteFacts.
Context `{Host}.
Import JsValue Server.

Lemma has_status_true s a : has_status s a = true <-> Stated.status_is s a.
Proof. apply strict_eq_string. Qed.

(** The statistics of a collection. *)
Lemma get_stats_run req w :
  get_stats req w =
    (json 200 (JObj
       {[ "total" := JNum (JsNumber.of_nat (length (default [] (disk w))));
          "applied" := JNum (JsNumber.of_nat (count_status "Applied" (default [] (disk w))));
          "interview" := JNum (JsNumber.of_nat (count_status "Interview" (default [] (disk w))));
          "offer" := JNum (JsNumber.of_nat (count_status "Offer" (default [] (disk w))));
          "rejected" := JNum (JsNumber.of_nat (count_status "Rejected" (default [] (disk w))));
          "successRate" := JStr (successRate (default [] (disk w))) ]}), w).
Proof.
  unfold get_stats, route, mbind, M_bind, readData. by destruct (disk w).
Qed.

Lemma post_application_invalid req w validation :
  validateApplication (body req) = Ok validation ->
  isValid validation = false ->
  post_application req w = (json 400 (validation_failed validation), w).
Proof.
  intros Hval Hv. unfold post_application, route, mbind, M_bind, lift.
  by rewrite Hval, Hv.
Qed.

Lemma post_application_throws req w e :
  validateApplication (body req) = Throw e ->
  post_application req w =
    (json 500 (JObj {[ "error" := JStr "Failed to create application";
                       "message" := JStr e ]}), w).
Proof.
  intros Hval. unfold post_application, route, mbind, M_bind, lift.
  by rewrite Hval.
Qed.

Lemma post_application_valid req w :
  passes (body req) = true ->
  write_fault w = None ->
  post_application req w =
    (json 201 (JObj (spread {[ "id" := JNum (JsNumber.of_Z (clock w)) ]} (body req))),
     World (Some (default [] (disk w) ++
                  [spread {[ "id" := JNum (JsNumber.of_Z (clock w)) ]} (body req)]))
           None (clock w)).
Proof.
  intros Hv Hw. apply passes_Ok in Hv as (validation & Hval & Hv).
  unfold post_application, route, mbind, M_bind, lift. rewrite Hval, Hv. simpl.
  unfold mbind, M_bind, readData, Date_now, writeData.
  destruct (disk w); simpl; by rewrite Hw.
Qed.

Lemma post_application_write_fails req w message :
  passes (body req) = true ->
  write_fault w = Some message ->
  post_application req w =
    (json 500 (JObj {[ "error" := JStr "Failed to create application";
                       "message" := JStr message ]}), w).
Proof.
  intros Hv Hw. apply passes_Ok in Hv as (validation & Hval & Hv).
  unfold post_application, route, mbind, M_bind, lift. rewrite Hval, Hv. simpl.
  unfold mbind, M_bind, readData, Date_now, writeData.
  destruct (disk w); simpl; by rewrite Hw.
Qed.

Lemma put_application_absent req w :
  passes (body req) = true ->
  Forall (fun a => has_id (parseInt (params_id req)) a = false) (default [] (disk w)) ->
  put_application req w = (json 404 (not_found req), w).
Proof.
  intros Hv Hid. apply findIndex_None in Hid.
  apply passes_Ok in Hv as (validation & Hval & Hv).
  unfold put_application, route, mbind, M_bind, lift. rewrite Hval, Hv. simpl.
  unfold mbind, M_bind, readData.
  destruct (disk w); simpl in *; [by rewrite Hid|done].
Qed.

Lemma put_application_valid req w index :
  passes (body req) = true ->
  write_fault w = None ->
  JsArray.findIndex (has_id (parseInt (params_id req))) (default [] (disk w)) = Some index ->
  put_application req w =
    (json 200 (JObj (spread {[ "id" := JNum (parseInt (params_id req)) ]} (body req))),
     World (Some (<[index := spread {[ "id" := JNum (parseInt (params_id req)) ]} (body req)]>
                    (default [] (disk w))))
           None (clock w)).
Proof.
  intros Hv Hw Hi. apply passes_Ok in Hv as (validation & Hval & Hv).
  unfold put_application, route, mbind, M_bind, lift. rewrite Hval, Hv. simpl.
  unfold mbind, M_bind, readData, writeData.
  assert (exists a, default [] (disk w) !! index = Some a) as [a Ha].
  { apply findIndex_Some in Hi as (a & Ha & _). eauto. }
  apply lookup_lt_Some in Ha.
  destruct (disk w) as [apps|]; simpl in *; [|done].
  rewrite Hi, Hw. simpl. by rewrite list_lookup_insert_eq.
Qed.

Lemma get_applications_run req w :
  exists view,
    get_applications req w = (json 200 (JArr (JObj <$> view)), w) /\
    view =
      (let applications := default [] (disk w) in
       let applications :=
         match query req !! "status" with
         | Some s =>
             if negb (bool_decide (s = "")) && negb (bool_decide (s = "All"))
             then List.filter (has_status s) applications
             else applications
         | None => applications
         end in
       match query req !! "sort" with
       | Some s =>
           if negb (bool_decide (s = ""))
           then JsArray.sort (compare_dates s) applications
           else applications
       | None => applications
       end).
Proof.
  eexists. split; [|reflexivity].
  unfold get_applications, route, mbind, M_bind, readData.
  by destruct (disk w).
Qed.

Lemma get_application_absent req w :
  Forall (fun a => has_id (parseInt (params_id req)) a = false) (default [] (disk w)) ->
  get_application req w = (json 404 (not_found req), w).
Proof.
  intros Hid. apply find_none_iff in Hid.
  unfold get_application, route, mbind, M_bind, readData.
  destruct (disk w); simpl in *; [by rewrite Hid|done].
Qed.

Lemma successRate_nil : successRate [] = "0%".
Proof. reflexivity. Qed.

Lemma count_status_narrowed s apps selected :
  Stated.narrowed (Stated.status_is s) apps selected ->
  count_status s apps = length selected.
Proof.
  intros Hn. unfold count_status. f_equal.
  eapply narrowed_unique; [|exact Hn].
  apply narrowed_filter. intros a _. apply has_status_true.
Qed.

End RouteFacts.

(** * The claims of the specification *)

Section Claims.
Context `{Host}.
Import JsValue Server.

Lemma fmap_JObj_inj (l l' : list obj) : JObj <$> l = JObj <$> l' -> l = l'.
Proof.
  revert l'. induction l as [|a l IH]; intros [|a' l']; simpl; try done.
  intros [= -> Hl]. f_equal. by apply IH.
Qed.

(** Update writes the properties of the body over the id of the path: a
    body that carries an [id] decides the stored id. *)
Lemma put_application_id_from_body req w index v :
  passes (body req) = true ->
  write_fault w = None ->
  JsArray.findIndex (has_id (parseInt (params_id req))) (default [] (disk w)) = Some index ->
  body req !! "id" = Some v ->
  exists updated,
    put_application req w =
      (json 200 (JObj updated),
       World (Some (<[index := updated]> (default [] (disk w)))) None (clock w)) /\
    updated !! "id" = Some v.
Proof.
  intros Hv Hw Hi Hid. eexists. split.
  - by apply put_application_valid.
  - by apply spread_lookup_source.
Qed.



(** C6. For every collection and every path id that no record of it
    carries, Update with a body that passes validation answers 404 and
    the world, hence the data file, is the same after the request as
    before it. *)
Theorem update_absent_id_not_found req w apps :
  disk w = Some apps ->
  passes (body req) = true ->
  Forall (fun a => has_id (parseInt (params_id req)) a = false) apps ->
  put_application req w = (json 404 (not_found req), w).
Proof.
  intros Hd Hv Hid. apply put_application_absent; [done|]. by rewrite Hd.
Qed.


(** C2, as the code has it. For every collection and every body that
    passes validation and has no [id] of its own, Create answers 201 with
    the created record, whose id is the reading of the clock, and appends
    the record to the collection; the id differs from the id of every
    record already present whenever the reading of the clock does. *)
Theorem create_assigns_clock_id req w apps :
  disk w = Some apps ->
  write_fault w = None ->
  passes (body req) = true ->
  body req !! "id" = None ->
  exists newApp,
    post_application req w =
      (json 201 (JObj newApp), World (Some (apps ++ [newApp])) None (clock w)) /\
    newApp !! "id" = Some (JNum (JsNumber.of_Z (clock w))) /\
    (Forall (fun a => has_id (JsNumber.of_Z (clock w)) a = false) apps ->
     Forall (fun a => strict_eq (a !! "id") (newApp !! "id") = false) apps).
Proof.
  intros Hd Hw Hv Hid. eexists. split; [|split].
  - rewrite post_application_valid by done. by rewrite Hd.
  - rewrite spread_lookup_target by done. apply lookup_singleton_eq.
  - rewrite spread_lookup_target by done. by rewrite lookup_singleton_eq.
Qed.

(** C3, as the code has it. For every collection, List leaves the world,
    hence the data file, as it was and returns the records, narrowed to
    one status when a status other than "All" is given: in the order of
    the file when no sort parameter (or an empty one) is given; ordered
    by date ascending for [sort=asc] and by date descending for any other
    sort value, records of equal date in the order of the file, provided
    every date is valid. *)
Theorem list_sorts_only_on_request req w apps :
  disk w = Some apps ->
  exists selected view,
    Stated.narrowed
      (fun a => match query req !! "status" with
                | Some s => s = "" \/ s = "All" \/ Stated.status_is s a
                | None => True
                end) apps selected /\
    get_applications req w = (json 200 (JArr (JObj <$> view)), w) /\
    match query req !! "sort" with
    | None | Some "" => view = selected
    | Some s =>
        Forall Stated.dated apps ->
        Stated.sorted_by_date (bool_decide (s = "asc")) selected view
    end.
Proof.
  intros Hd. destruct (get_applications_run req w) as (view & Hrun & Hview).
  rewrite Hd in Hview. cbn [default from_option id] in Hview.
  set (selected :=
         match query req !! "status" with
         | Some s =>
             if negb (bool_decide (s = "")) && negb (bool_decide (s = "All"))
             then List.filter (has_status s) apps
             else apps
         | None => apps
         end) in *.
  exists selected, view. split; [|split; [exact Hrun|]].
  - subst selected. destruct (query req !! "status") as [s|].
    + destruct (bool_decide (s = "")) eqn:He; simpl.
      { apply narrowed_all. intros a _. left. by apply bool_decide_eq_true in He. }
      destruct (bool_decide (s = "All")) eqn:Ha; simpl.
      { apply narrowed_all. intros a _. right; left. by apply bool_decide_eq_true in Ha. }
      apply bool_decide_eq_false in He, Ha.
      apply narrowed_filter. intros a _. rewrite has_status_true. tauto.
    + by apply narrowed_all.
  - destruct (query req !! "sort") as [[|c s]|]; [done| |done].
    intros Hdated. simpl in Hview. rewrite Hview.
    apply sort_sorts_by_date.
    + rewrite Forall_forall in *. intros a Ha. apply Hdated.
      subst selected. destruct (query req !! "status") as [s'|]; [|done].
      destruct (negb _ && negb _); [|done].
      apply list_elem_of_In, filter_In in Ha as [Ha _]. by apply list_elem_of_In.
    + intros a b. unfold compare_dates. by destruct (bool_decide _).
Qed.

(** C7. For every collection, Stats answers 200, leaves the world as it
    was, and returns the number of records, the number of records of each
    status, and the offer rate: "0%" for the empty collection, otherwise
    offers divided by the total, times 100, printed with two decimals and
    a percent sign, which is "20.00%" for 5 records of which 1 has the
    status Offer. *)
Theorem stats_counts_and_rate req w apps :
  disk w = Some apps ->
  exists stats,
    get_stats req w = (json 200 (JObj stats), w) /\
    stats !! "total" = Some (JNum (JsNumber.of_nat (length apps))) /\
    (forall field s selected,
       (field, s) ∈ [("applied", "Applied"); ("interview", "Interview");
                     ("offer", "Offer"); ("rejected", "Rejected")] ->
       Stated.narrowed (Stated.status_is s) apps selected ->
       stats !! field = Some (JNum (JsNumber.of_nat (length selected)))) /\
    (apps = [] -> stats !! "successRate" = Some (JStr "0%")) /\
    (forall offers,
       apps <> [] ->
       Stated.narrowed (Stated.status_is "Offer") apps offers ->
       stats !! "successRate" =
         Some (JStr (JsNumber.toFixed Number_toString 2
                       (JsNumber.mul
                          (JsNumber.div (JsNumber.of_nat (length offers))
                                        (JsNumber.of_nat (length apps)))
                          (JsNumber.of_Z 100)) +:+ "%"))) /\
    (forall offers,
       length apps = 5%nat ->
       Stated.narrowed (Stated.status_is "Offer") apps offers ->
       length offers = 1%nat ->
       stats !! "successRate" = Some (JStr "20.00%")).
Proof.
  intros Hd. eexists. split; [|split; [|split; [|split; [|split]]]].
  - rewrite get_stats_run, Hd. reflexivity.
  - reflexivity.
  - intros field s selected Hin Hn.
    rewrite <- (count_status_narrowed _ _ _ Hn).
    repeat (apply elem_of_cons in Hin as [[= -> ->]|Hin]; [reflexivity|]).
    by apply elem_of_nil in Hin.
  - intros ->. reflexivity.
  - intros offers Hne Hn. rewrite <- (count_status_narrowed _ _ _ Hn).
    unfold successRate. destruct apps; [done|]. reflexivity.
  - intros offers Hlen Hn Hone.
    rewrite <- (count_status_narrowed _ _ _ Hn) in Hone.
    cbn [default from_option id].
    replace (successRate apps) with "20.00%"; [reflexivity|].
    unfold successRate. rewrite Hone, Hlen. reflexivity.
Qed.

(** C9, as the code has it. For every request, if reading the data file
    fails the collection is taken to be empty: List answers 200 with an
    empty array, Get answers 404 and Stats answers 200 with total 0 and
    rate "0%", and the world is left as it was; status 500 with a generic
    error and the message of the fault is what Create answers when
    writing the file fails. *)
Theorem unreadable_file_reads_as_empty req w :
  disk w = None ->
  get_applications req w = (json 200 (JArr []), w) /\
  get_application req w = (json 404 (not_found req), w) /\
  (exists stats,
     get_stats req w = (json 200 (JObj stats), w) /\
     stats !! "total" = Some (JNum (JsNumber.of_nat 0)) /\
     stats !! "successRate" = Some (JStr "0%")) /\
  (forall message,
     write_fault w = Some message ->
     passes (body req) = true ->
     post_application req w =
       (json 500 (JObj {[ "error" := JStr "Failed to create application";
                          "message" := JStr message ]}), w)).
Proof.
  intros Hd. split; [|split; [|split]].
  - destruct (get_applications_run req w) as (view & -> & ->).
    rewrite Hd. cbn [default from_option id].
    destruct (query req !! "status") as [s|], (query req !! "sort") as [s'|];
      repeat (destruct (negb _)); reflexivity.
  - apply get_application_absent. rewrite Hd. constructor.
  - eexists. split; [|split].
    + rewrite get_stats_run, Hd. reflexivity.
    + reflexivity.
    + reflexivity.
  - intros message Hw Hv. by apply post_application_write_fails.
Qed.

End Claims.

Section ValidationClaim.
Context `{Host}.
Import JsValue Server.


End ValidationClaim.

(** ** The client's view *)

Section ClientFacts.
Context `{Host}.
Import JsValue Client.

Lemma narrowed_iff {A : Type} (P Q : A -> Prop) (l l' : list A) :
  (forall x, P x <-> Q x) -> Stated.narrowed P l l' -> Stated.narrowed Q l l'.
Proof.
  intros HPQ. induction 1 as [|x l l' Hx Hn IH|x l l' Hx Hn IH].
  - constructor.
  - apply Stated.narrowed_keep; [by apply HPQ|done].
  - apply Stated.narrowed_drop; [by rewrite <- HPQ|done].
Qed.

Lemma narrowed_Forall {A : Type} (P Q : A -> Prop) (l l' : list A) :
  Stated.narrowed P l l' -> Forall Q l -> Forall Q l'.
Proof.
  intros Hn. rewrite !Forall_forall. intros HQ x Hx.
  by eapply HQ, narrowed_elem.
Qed.

Lemma matches_search_typed term a :
  Stated.typed_record a ->
  exists b, matches_search term a = Ok b /\
            (b = true <-> Stated.company_or_role_contains term a).
Proof.
  intros [Hc Hr]. unfold matches_search, Stated.company_or_role_contains.
  destruct (a !! "company") as [[| | |c| |]|]; try done.
  destruct (a !! "role") as [[| | |r| |]|]; try done. simpl.
  destruct (JsString.includes (JsString.toLowerCase c) _) eqn:Hic.
  - exists true. split; [done|]. split; [|done]. intros _. left.
    exists c. split; [done|]. by apply includes_toLowerCase.
  - eexists. split; [done|]. rewrite includes_toLowerCase. split.
    + intros Hi. right. by exists r.
    + intros [(c' & [= <-] & Hi)|(r' & [= <-] & Hi)]; [|done].
      apply includes_toLowerCase in Hi. congruence.
Qed.

Lemma filter_throwing_typed term l :
  Forall Stated.typed_record l ->
  exists selected,
    filter_throwing (matches_search term) l = Ok selected /\
    Stated.narrowed (Stated.company_or_role_contains term) l selected.
Proof.
  induction 1 as [|a l Ha _ (selected & Hrun & Hn)]; simpl.
  - exists []. split; [done|constructor].
  - destruct (matches_search_typed term a Ha) as (b & -> & Hb). simpl.
    rewrite Hrun. simpl. destruct b.
    + exists (a :: selected). split; [done|].
      apply Stated.narrowed_keep; [by apply Hb|done].
    + exists selected. split; [done|].
      apply Stated.narrowed_drop; [|done]. intros Hc. by apply Hb in Hc.
Qed.


End ClientFacts.

(** * Concrete runs *)

(** C1 (the code departs from the claim). PUT /api/applications/1 on the
    initial data file, with a valid body that carries [id: 99]: the record
    with id 1 is found at index 0 and replaced, the answer is 200, and the
    id of the stored and returned record is 99, the one of the body, not
    the 1 of the path. *)
Theorem update_keeps_id_of_body_not_of_path :
  parseInt (params_id Runs.update_1_as_99) = JsNumber.of_Z 1 /\
  Server.passes (body Runs.update_1_as_99) = true /\
  JsArray.findIndex (Server.has_id (JsNumber.of_Z 1)) Sample.sampleData = Some 0%nat /\
  exists updated,
    Server.put_application Runs.update_1_as_99 Runs.initial =
      (Server.json 200 (JObj updated),
       World (Some (<[0%nat := updated]> Sample.sampleData)) None (clock Runs.initial)) /\
    updated !! "id" = Some (JNum (JsNumber.of_Z 99)) /\
    Server.has_id (JsNumber.of_Z 1) updated = false.
Proof.
  split; [reflexivity|]. split; [reflexivity|]. split; [reflexivity|].
  eexists. split; [|split].
  - apply (put_application_valid Runs.update_1_as_99 Runs.initial 0); reflexivity.
  - reflexivity.
  - reflexivity.
Qed.

(** C2 fails as stated: two creates within one tick of the clock.  After
    the example record is created in an empty collection, creating it again
    while the clock still reads the same millisecond gives the second
    record the id of the first. *)
Lemma create_twice_in_one_tick_repeats_id :
  exists first,
    snd (Server.post_application Runs.create_acme Runs.empty) =
      World (Some [first]) None (clock Runs.empty) /\
    ~ Stated.create_id_is_new Runs.create_acme
        (World (Some [first]) None (clock Runs.empty)) [first].
Proof.
  exists (JsValue.spread {[ "id" := JNum (JsNumber.of_Z (clock Runs.empty)) ]} Runs.acme).
  split.
  - rewrite post_application_valid by reflexivity. reflexivity.
  - intros Hclaim.
    destruct Hclaim as (newApp & Hrun & Hnew); [reflexivity|reflexivity|reflexivity|].
    rewrite post_application_valid in Hrun by reflexivity.
    injection Hrun as Hrun _. subst newApp.
    apply Forall_cons in Hnew as [Hnew _]. apply Hnew. reflexivity.
Qed.

(** Witness of C2 as the code has it: the example record created in the
    initial data file. *)
Lemma create_assigns_clock_id_witness :
  disk Runs.initial = Some Sample.sampleData /\
  write_fault Runs.initial = None /\
  Server.passes (body Runs.create_acme) = true /\
  body Runs.create_acme !! "id" = None /\
  exists newApp,
    Server.post_application Runs.create_acme Runs.initial =
      (Server.json 201 (JObj newApp),
       World (Some (Sample.sampleData ++ [newApp])) None (clock Runs.initial)) /\
    newApp !! "id" = Some (JNum (JsNumber.of_Z (clock Runs.initial))) /\
    (Forall (fun a => Server.has_id (JsNumber.of_Z (clock Runs.initial)) a = false)
            Sample.sampleData ->
     Forall (fun a => JsValue.strict_eq (a !! "id") (newApp !! "id") = false)
            Sample.sampleData).
Proof.
  split; [reflexivity|]. split; [reflexivity|].
  split; [reflexivity|]. split; [reflexivity|].
  apply (create_assigns_clock_id Runs.create_acme Runs.initial Sample.sampleData);
    reflexivity.
Defined.

(** C3 fails as stated: GET /api/applications without a sort parameter on
    the initial data file returns the five records in the order of the
    file, whose last record is the newest. *)
Lemma list_without_sort_not_descending :
  ~ Stated.list_defaults_to_descending Runs.list_all Runs.initial Sample.sampleData.
Proof.
  intros Hclaim. destruct Hclaim as (view & Hrun & Hdesc); [reflexivity|reflexivity|].
  assert (view = Sample.sampleData) as ->.
  { destruct (get_applications_run Runs.list_all Runs.initial) as (view' & Hrun' & ->).
    rewrite Hrun' in Hrun. injection Hrun as Hrun. symmetry. by apply fmap_JObj_inj. }
  apply StronglySorted_inv in Hdesc as [_ Hfirst].
  rewrite Forall_forall in Hfirst.
  assert (Stated.time_of
            (Sample.record 5 "Microsoft" "Cloud Engineer" "2026-01-12" "Applied"
               "Redmond, WA"
               "Azure platform team. Recruiter reached out via LinkedIn. Application submitted with referral.")
          <= Stated.time_of
               (Sample.record 1 "Google" "Senior Frontend Developer" "2026-01-10" "Interview"
                  "Gurgaon,India"
                  "Technical round scheduled for next week. Focus on system design and React architecture. Team seems great!"))
    as Hle.
  { apply Hfirst. do 3 apply list_elem_of_further. apply list_elem_of_here. }
  vm_compute in Hle. by apply Hle.
Qed.

(** Witness of C3 as the code has it: the initial data file listed with
    [sort=asc]. *)
Lemma list_sorts_only_on_request_witness :
  disk Runs.initial = Some Sample.sampleData /\
  exists selected view,
    Stated.narrowed
      (fun a => match query Runs.list_ascending !! "status" with
                | Some s => s = "" \/ s = "All" \/ Stated.status_is s a
                | None => True
                end) Sample.sampleData selected /\
    Server.get_applications Runs.list_ascending Runs.initial =
      (Server.json 200 (JArr (JObj <$> view)), Runs.initial) /\
    match query Runs.list_ascending !! "sort" with
    | None | Some "" => view = selected
    | Some s =>
        Forall Stated.dated Sample.sampleData ->
        Stated.sorted_by_date (bool_decide (s = "asc")) selected view
    end.
Proof.
  split; [reflexivity|].
  apply (list_sorts_only_on_request Runs.list_ascending Runs.initial Sample.sampleData).
  reflexivity.
Defined.




(** Witness of C6: PUT /api/applications/42 on the initial data file. *)
Lemma update_absent_id_not_found_witness :
  disk Runs.initial = Some Sample.sampleData /\
  Server.passes (body Runs.update_42) = true /\
  Forall (fun a => Server.has_id (parseInt (params_id Runs.update_42)) a = false)
         Sample.sampleData /\
  Server.put_application Runs.update_42 Runs.initial =
    (Server.json 404 (Server.not_found Runs.update_42), Runs.initial).
Proof.
  assert (Forall (fun a => Server.has_id (parseInt (params_id Runs.update_42)) a = false)
                 Sample.sampleData) as Habsent.
  { repeat (constructor; [reflexivity|]). constructor. }
  split; [reflexivity|]. split; [reflexivity|]. split; [exact Habsent|].
  apply (update_absent_id_not_found Runs.update_42 Runs.initial Sample.sampleData).
  - reflexivity.
  - reflexivity.
  - exact Habsent.
Defined.

(** Witness of C7: the statistics of the initial data file, five records
    of which one is an offer. *)
Lemma stats_counts_and_rate_witness :
  disk Runs.initial = Some Sample.sampleData /\
  exists stats,
    Server.get_stats Runs.list_all Runs.initial =
      (Server.json 200 (JObj stats), Runs.initial) /\
    stats !! "total" = Some (JNum (JsNumber.of_nat 5)) /\
    stats !! "offer" = Some (JNum (JsNumber.of_nat 1)) /\
    stats !! "successRate" = Some (JStr "20.00%").
Proof.
  split; [reflexivity|].
  assert (Stated.narrowed (Stated.status_is "Offer") Sample.sampleData
            (List.filter (Server.has_status "Offer") Sample.sampleData)) as Hoffers.
  { apply narrowed_filter. intros a _. apply has_status_true. }
  destruct (stats_counts_and_rate Runs.list_all Runs.initial Sample.sampleData eq_refl)
    as (stats & Hrun & Htotal & Hcounts & _ & _ & Hrate).
  exists stats. split; [exact Hrun|]. split; [exact Htotal|]. split.
  - exact (Hcounts "offer" "Offer" _
             (list_elem_of_further _ _ _ (list_elem_of_further _ _ _ (list_elem_of_here _ _)))
             Hoffers).
  - apply (Hrate _ eq_refl Hoffers). reflexivity.
Defined.

(** C9 fails as stated: GET /api/applications on a data file that cannot
    be read answers 200. *)
Lemma unreadable_file_lists_with_200 :
  ~ Stated.read_failure_surfaces Runs.list_all Runs.unreadable.
Proof.
  intros Hclaim. destruct Hclaim as [Hlist _]; [reflexivity|].
  vm_compute in Hlist. discriminate Hlist.
Qed.

(** Witness of C9 as the code has it. *)
Lemma unreadable_file_reads_as_empty_witness :
  disk Runs.unreadable = None /\
  Server.get_applications Runs.list_all Runs.unreadable =
    (Server.json 200 (JArr []), Runs.unreadable) /\
  Server.get_application Runs.update_42 Runs.unreadable =
    (Server.json 404 (Server.not_found Runs.update_42), Runs.unreadable).
Proof.
  split; [reflexivity|].
  pose proof (unreadable_file_reads_as_empty Runs.list_all Runs.unreadable eq_refl)
    as (Hlist & _).
  pose proof (unreadable_file_reads_as_empty Runs.update_42 Runs.unreadable eq_refl)
    as (_ & Hget & _).
  split; [exact Hlist|exact Hget].
Defined.



(** The view of the initial data file for the status "Applied", the search
    term "ENGINEER" and the toggle 'desc': Microsoft (2026-01-12), then
    Meta (2026-01-08). *)
Example view_of_applied_engineers :
  Client.filteredApps Sample.sampleData "Applied" "ENGINEER" "desc" =
  Ok [ Sample.record 5 "Microsoft" "Cloud Engineer" "2026-01-12" "Applied"
         "Redmond, WA"
         "Azure platform team. Recruiter reached out via LinkedIn. Application submitted with referral.";
       Sample.record 2 "Meta" "Full Stack Engineer Intern" "2026-01-08" "Applied"
         "Delhi,India"
         "Interesting AR/VR projects. Submitted portfolio showcasing React and Node.js work." ].
Proof. reflexivity. Qed.


(** * Further properties of the code *)

(** ** Numbers: [===] on the ids *)

Section NumberFacts.

Lemma shr_1_nonneg mrs : 0 <= shr_m mrs -> 0 <= shr_m (shr_1 mrs).
Proof.
  destruct mrs as [m r s]. simpl.
  destruct m as [|[p|p|]|[p|p|]]; simpl; lia.
Qed.

Lemma iter_shr_1_nonneg p mrs :
  0 <= shr_m mrs -> 0 <= shr_m (@SpecFloat.iter_pos _ shr_1 p mrs).
Proof.
  revert mrs. induction p as [p IH|p IH|]; intros mrs Hm; simpl.
  - by apply IH, IH, shr_1_nonneg.
  - by apply IH, IH.
  - by apply shr_1_nonneg.
Qed.

Lemma shr_fexp_nonneg prec emax m e l :
  0 <= m -> 0 <= shr_m (fst (shr_fexp prec emax m e l)).
Proof.
  intros Hm. unfold shr_fexp, shr.
  assert (0 <= shr_m (shr_record_of_loc m l)) as Hr.
  { by destruct l as [|[]]. }
  destruct (fexp prec emax (Zdigits2 m + e) - e); simpl; [done| |done].
  by apply iter_shr_1_nonneg.
Qed.

Lemma round_nearest_even_nonneg m l : 0 <= m -> 0 <= round_nearest_even m l.
Proof.
  intros Hm. destruct l as [|[]]; simpl; try lia.
  destruct (Z.even m); lia.
Qed.

Lemma binary_round_aux_not_nan prec emax sx mx ex lx :
  0 <= mx -> binary_round_aux prec emax sx mx ex lx <> S754_nan.
Proof.
  intros Hm. unfold binary_round_aux.
  pose proof (shr_fexp_nonneg prec emax mx ex lx Hm) as H1.
  destruct (shr_fexp prec emax mx ex lx) as [mrs' e']. simpl in H1.
  pose proof (shr_fexp_nonneg prec emax
                (round_nearest_even (shr_m mrs') (loc_of_shr_record mrs')) e' loc_Exact
                (round_nearest_even_nonneg _ _ H1)) as H2.
  destruct (shr_fexp prec emax _ e' loc_Exact) as [mrs'' e'']. simpl in H2.
  destruct (shr_m mrs''); [done| |lia].
  by destruct (e'' <=? emax - prec).
Qed.

(** The double of an integer is a number. *)
Lemma of_Z_not_nan z : JsNumber.of_Z z <> JsNumber.NaN.
Proof.
  unfold JsNumber.of_Z, binary_normalize, binary_round.
  destruct z as [|p|p]; [done| |].
  - destruct (shl_align _ _ _). by apply binary_round_aux_not_nan.
  - destruct (shl_align _ _ _). by apply binary_round_aux_not_nan.
Qed.

Lemma eqb_refl (x : number) : x <> JsNumber.NaN -> JsNumber.eqb x x = true.
Proof.
  intros Hx. unfold JsNumber.eqb, SFeqb.
  destruct x as [s|s| |s m e]; simpl; try done.
  - by destruct s.
  - rewrite Z.compare_refl, Pos.compare_cont_refl. by destruct s.
Qed.

Lemma eqb_true_not_nan (x y : number) :
  JsNumber.eqb x y = true -> y <> JsNumber.NaN.
Proof. intros Heq ->. unfold JsNumber.eqb, SFeqb in Heq. by destruct x. Qed.

End NumberFacts.

(** ** Lists *)

Section ListFacts.
Context {A : Type}.
Implicit Types (l : list A) (p : A -> bool).

Lemma findIndex_first p l i :
  JsArray.findIndex p l = Some i ->
  forall j x, (j < i)%nat -> l !! j = Some x -> p x = false.
Proof.
  revert i. induction l as [|y l IH]; intros i; simpl; [done|].
  destruct (p y) eqn:Hy.
  - intros [= <-] j x Hj. lia.
  - destruct (JsArray.findIndex p l) as [k|] eqn:Hk; simpl; [|done].
    intros [= <-] [|j] x Hj; simpl.
    + by intros [= <-].
    + apply (IH k eq_refl). lia.
Qed.

Lemma find_insert_first p l i u :
  JsArray.findIndex p l = Some i -> p u = true ->
  List.find p (<[i := u]> l) = Some u.
Proof.
  revert i. induction l as [|y l IH]; intros i; simpl; [done|].
  destruct (p y) eqn:Hy.
  - intros [= <-] Hu. simpl. by rewrite Hu.
  - destruct (JsArray.findIndex p l) as [k|] eqn:Hk; simpl; [|done].
    intros [= <-] Hu. simpl. rewrite Hy. by apply IH.
Qed.

Lemma find_app_last p l u :
  Forall (fun x => p x = false) l -> p u = true ->
  List.find p (l ++ [u]) = Some u.
Proof.
  induction 1 as [|x l Hx _ IH]; intros Hu; simpl.
  - by rewrite Hu.
  - rewrite Hx. by apply IH.
Qed.

Lemma find_Some_first p l x :
  List.find p l = Some x ->
  exists i, JsArray.findIndex p l = Some i /\ l !! i = Some x /\ p x = true.
Proof.
  induction l as [|y l IH]; simpl; [done|].
  destruct (p y) eqn:Hy.
  - intros [= <-]. by exists 0%nat.
  - intros Hf. destruct (IH Hf) as (i & -> & Hi & Hx). by exists (S i).
Qed.

Lemma filter_length_lt p l x :
  x ∈ l -> p x = false -> (length (List.filter p l) < length l)%nat.
Proof.
  intros Hx Hp. induction l as [|y l IH]; [by apply elem_of_nil in Hx|].
  simpl. pose proof (filter_length_le p l) as Hle.
  apply elem_of_cons in Hx as [<-|Hx].
  - rewrite Hp. lia.
  - destruct (p y); simpl; [|lia]. specialize (IH Hx). lia.
Qed.

Lemma filter_length_eq_all p l :
  length (List.filter p l) = length l -> Forall (fun x => p x = true) l.
Proof.
  induction l as [|y l IH]; simpl; [constructor|].
  pose proof (filter_length_le p l) as Hle.
  destruct (p y) eqn:Hy; simpl; [|lia].
  intros Hl. constructor; [done|]. apply IH. lia.
Qed.

Lemma filter_filter_none p l :
  Forall (fun x => negb (negb (p x)) = false) (List.filter (fun x => negb (p x)) l).
Proof.
  rewrite Forall_forall. intros x Hx.
  apply list_elem_of_In, filter_In in Hx as [_ Hx].
  by rewrite Hx.
Qed.

End ListFacts.

(** ** The routes, case by case *)

Section RouteCases.
Context `{Host}.
Import JsValue Server Invariant.

Lemma has_id_refl id a b :
  has_id id a = true -> b !! "id" = Some (JNum id) -> has_id id b = true.
Proof.
  unfold has_id. intros Ha ->. simpl.
  destruct (a !! "id") as [[| |x| | |]|]; try done. simpl in Ha.
  by eapply eqb_refl, eqb_true_not_nan.
Qed.

Lemma put_application_invalid req w validation :
  validateApplication (body req) = Ok validation ->
  isValid validation = false ->
  put_application req w = (json 400 (validation_failed validation), w).
Proof.
  intros Hval Hv. unfold put_application, route, mbind, M_bind, lift.
  by rewrite Hval, Hv.
Qed.

Lemma put_application_throws req w e :
  validateApplication (body req) = Throw e ->
  put_application req w =
    (json 500 (JObj {[ "error" := JStr "Failed to update application";
                       "message" := JStr e ]}), w).
Proof.
  intros Hval. unfold put_application, route, mbind, M_bind, lift.
  by rewrite Hval.
Qed.

Lemma not_passes req :
  passes (body req) = false ->
  (exists validation,
     validateApplication (body req) = Ok validation /\ isValid validation = false) \/
  (exists e, validateApplication (body req) = Throw e).
Proof.
  unfold passes. destruct (validateApplication (body req)) as [validation|e]; eauto.
Qed.

Lemma put_application_write_fails req w index message :
  passes (body req) = true ->
  write_fault w = Some message ->
  JsArray.findIndex (has_id (parseInt (params_id req))) (stored w) = Some index ->
  put_application req w =
    (json 500 (JObj {[ "error" := JStr "Failed to update application";
                       "message" := JStr message ]}), w).
Proof.
  intros Hv Hw Hi. apply passes_Ok in Hv as (validation & Hval & Hv).
  unfold put_application, route, mbind, M_bind, lift. rewrite Hval, Hv. simpl.
  unfold mbind, M_bind, readData, writeData. unfold stored in Hi.
  destruct (disk w); simpl in *; [|done]. by rewrite Hi, Hw.
Qed.

Lemma delete_application_absent req w :
  Forall (fun a => has_id (parseInt (params_id req)) a = false) (stored w) ->
  delete_application req w = (json 404 (not_found req), w).
Proof.
  intros Hid. unfold delete_application, route, mbind, M_bind, readData.
  assert (List.filter (fun a => negb (has_id (parseInt (params_id req)) a)) (stored w)
          = stored w) as Hf.
  { apply filter_all_true. eapply Forall_impl; [exact Hid|].
    intros a Ha. simpl in Ha. by rewrite Ha. }
  unfold stored in *.
  destruct (disk w); simpl in *; [|done].
  rewrite Hf. by rewrite bool_decide_eq_true_2.
Qed.

Lemma delete_application_present req w a :
  a ∈ stored w ->
  has_id (parseInt (params_id req)) a = true ->
  delete_application req w =
    match write_fault w with
    | None =>
        (json 200 (JObj {[ "success" := JBool true;
                           "message" := JStr "Application deleted successfully";
                           "id" := JNum (parseInt (params_id req)) ]}),
         World (Some (List.filter (fun a => negb (has_id (parseInt (params_id req)) a))
                                  (stored w)))
               None (clock w))
    | Some message =>
        (json 500 (JObj {[ "error" := JStr "Failed to delete application";
                           "message" := JStr message ]}), w)
    end.
Proof.
  intros Ha Hid. unfold delete_application, route, mbind, M_bind, readData, writeData.
  pose proof (filter_length_lt (fun a => negb (has_id (parseInt (params_id req)) a))
                (stored w) a Ha) as Hlt.
  cbv beta in Hlt. rewrite Hid in Hlt. specialize (Hlt eq_refl).
  unfold stored in *.
  destruct (disk w) as [apps|]; simpl in *; [|by apply elem_of_nil in Ha].
  rewrite bool_decide_eq_false_2 by lia.
  by destruct (write_fault w).
Qed.

Lemma get_application_present req w a :
  List.find (has_id (parseInt (params_id req))) (stored w) = Some a ->
  get_application req w = (json 200 (JObj a), w).
Proof.
  intros Hf. unfold get_application, route, mbind, M_bind, readData.
  unfold stored in Hf. destruct (disk w); simpl in *; [|done]. by rewrite Hf.
Qed.

(** Validation reads the four fields and nothing else. *)
Lemma validateApplication_ext (d d' : obj) :
  d !! "company" = d' !! "company" ->
  d !! "role" = d' !! "role" ->
  d !! "date" = d' !! "date" ->
  d !! "status" = d' !! "status" ->
  validateApplication d = validateApplication d'.
Proof. intros Hc Hr Hd Hs. unfold validateApplication. by rewrite Hc, Hr, Hd, Hs. Qed.

Lemma spread_id_lookup (data : obj) (x : number) k :
  k <> "id" -> spread {[ "id" := JNum x ]} data !! k = data !! k.
Proof.
  intros Hk. unfold spread. destruct (data !! k) as [v|] eqn:Hd.
  - by apply lookup_union_Some_l.
  - rewrite lookup_union_r by done. by apply lookup_singleton_ne.
Qed.

Lemma validateApplication_spread_id (data : obj) (x : number) :
  validateApplication (spread {[ "id" := JNum x ]} data) = validateApplication data.
Proof. apply validateApplication_ext; by apply spread_id_lookup. Qed.

Lemma post_application_world req w :
  snd (post_application req w) = w \/
  (passes (body req) = true /\
   snd (post_application req w) =
     World (Some (stored w ++ [spread {[ "id" := JNum (JsNumber.of_Z (clock w)) ]} (body req)]))
           None (clock w)).
Proof.
  destruct (passes (body req)) eqn:Hv.
  - destruct (write_fault w) as [message|] eqn:Hw.
    + left. by rewrite (post_application_write_fails _ _ message).
    + right. split; [done|]. by rewrite post_application_valid.
  - left. destruct (not_passes _ Hv) as [(validation & Hval & Hi)|(e & Hval)].
    + by rewrite (post_application_invalid _ _ validation).
    + by rewrite (post_application_throws _ _ e).
Qed.

Lemma put_application_world req w :
  snd (put_application req w) = w \/
  (passes (body req) = true /\
   exists index,
     JsArray.findIndex (has_id (parseInt (params_id req))) (stored w) = Some index /\
     snd (put_application req w) =
       World (Some (<[index := spread {[ "id" := JNum (parseInt (params_id req)) ]} (body req)]>
                      (stored w)))
             None (clock w)).
Proof.
  destruct (passes (body req)) eqn:Hv.
  - destruct (JsArray.findIndex (has_id (parseInt (params_id req))) (stored w))
      as [index|] eqn:Hi.
    + destruct (write_fault w) as [message|] eqn:Hw.
      * left. by rewrite (put_application_write_fails _ _ index message).
      * right. split; [done|]. exists index. split; [done|].
        by rewrite (put_application_valid _ _ index).
    + left. rewrite put_application_absent; [done..|]. by apply findIndex_None.
  - left. destruct (not_passes _ Hv) as [(validation & Hval & Hi)|(e & Hval)].
    + by rewrite (put_application_invalid _ _ validation).
    + by rewrite (put_application_throws _ _ e).
Qed.

Lemma delete_application_world req w :
  snd (delete_application req w) = w \/
  snd (delete_application req w) =
    World (Some (List.filter (fun a => negb (has_id (parseInt (params_id req)) a))
                             (stored w)))
          None (clock w).
Proof.
  destruct (List.find (has_id (parseInt (params_id req))) (stored w)) as [a|] eqn:Hf.
  - apply find_Some_first in Hf as (i & _ & Hi & Ha).
    rewrite (delete_application_present _ _ a); [|by eapply list_elem_of_lookup_2|done].
    destruct (write_fault w); auto.
  - apply find_none_iff in Hf. left. by rewrite delete_application_absent.
Qed.

End RouteCases.

(** ** The server beyond the claims *)

Section ServerExtras.
Context `{Host}.
Import JsValue Server Invariant.

Lemma present_findIndex p (l : list obj) a :
  a ∈ l -> p a = true -> exists index, JsArray.findIndex p l = Some index.
Proof.
  intros Ha Hp. destruct (JsArray.findIndex p l) as [i|] eqn:Hi; [by exists i|].
  apply findIndex_None in Hi. rewrite Forall_forall in Hi.
  specialize (Hi a Ha). congruence.
Qed.

Lemma present_find p (l : list obj) a :
  a ∈ l -> p a = true -> exists found, List.find p l = Some found.
Proof.
  intros Ha Hp. destruct (List.find p l) as [x|] eqn:Hf; [by exists x|].
  apply find_none_iff in Hf. rewrite Forall_forall in Hf.
  specialize (Hf a Ha). congruence.
Qed.

(** X1. Delete of an id that no record carries answers 404 and leaves the
    world as it was. *)
Theorem delete_absent_id_not_found req w :
  Forall (fun a => has_id (parseInt (params_id req)) a = false) (stored w) ->
  delete_application req w = (json 404 (not_found req), w).
Proof. apply delete_application_absent. Qed.

(** X2. Delete of an id that some record carries answers 200 with the parsed
    id and rewrites the file without every record of that id: the other
    records stay, in their order, and the collection gets shorter. *)
Theorem delete_removes_every_record_with_id req w a :
  write_fault w = None ->
  a ∈ stored w ->
  has_id (parseInt (params_id req)) a = true ->
  exists remaining,
    delete_application req w =
      (json 200 (JObj {[ "success" := JBool true;
                         "message" := JStr "Application deleted successfully";
                         "id" := JNum (parseInt (params_id req)) ]}),
       World (Some remaining) None (clock w)) /\
    Stated.narrowed (fun b => has_id (parseInt (params_id req)) b = false)
      (stored w) remaining /\
    (length remaining < length (stored w))%nat.
Proof.
  intros Hw Ha Hid. eexists. split; [|split].
  - rewrite (delete_application_present _ _ a) by done. by rewrite Hw.
  - apply narrowed_filter. intros b _. apply negb_true_iff.
  - apply (filter_length_lt _ _ a); [done|]. by rewrite Hid.
Qed.

(** X3. After a successful Delete the id is gone: Get and a second Delete of
    the same id both answer 404 and change nothing. *)
Theorem delete_then_not_found req w a :
  write_fault w = None ->
  a ∈ stored w ->
  has_id (parseInt (params_id req)) a = true ->
  get_application req (snd (delete_application req w)) =
    (json 404 (not_found req), snd (delete_application req w)) /\
  delete_application req (snd (delete_application req w)) =
    (json 404 (not_found req), snd (delete_application req w)).
Proof.
  intros Hw Ha Hid.
  rewrite (delete_application_present _ _ a) by done. rewrite Hw. cbn [snd].
  assert (Forall (fun b => has_id (parseInt (params_id req)) b = false)
            (List.filter (fun b => negb (has_id (parseInt (params_id req)) b)) (stored w)))
    as Hgone.
  { rewrite Forall_forall. intros b Hb.
    apply list_elem_of_In, filter_In in Hb as [_ Hb]. by apply negb_true_iff. }
  split.
  - by apply get_application_absent.
  - by apply delete_application_absent.
Qed.

(** X4. Get answers 200 with the first record, in file order, that carries
    the id, and leaves the world as it was. *)
Theorem get_returns_first_record_with_id req w a :
  a ∈ stored w ->
  has_id (parseInt (params_id req)) a = true ->
  exists index found,
    get_application req w = (json 200 (JObj found), w) /\
    stored w !! index = Some found /\
    has_id (parseInt (params_id req)) found = true /\
    (forall j b, (j < index)%nat -> stored w !! j = Some b ->
                 has_id (parseInt (params_id req)) b = false).
Proof.
  intros Ha Hid. destruct (present_find _ _ a Ha Hid) as (found & Hf).
  destruct (find_Some_first _ _ _ Hf) as (index & Hi & Hl & Hp).
  exists index, found. split; [by apply get_application_present|].
  split; [done|]. split; [done|]. by apply findIndex_first.
Qed.

(** X5. Create then Get: when the body has no id of its own and no record
    carries the reading of the clock as its id, Get of that id answers
    200 with the record that Create returned. *)
Theorem create_then_get_returns_created req get w :
  write_fault w = None ->
  passes (body req) = true ->
  body req !! "id" = None ->
  Forall (fun a => has_id (JsNumber.of_Z (clock w)) a = false) (stored w) ->
  parseInt (params_id get) = JsNumber.of_Z (clock w) ->
  exists created w',
    post_application req w = (json 201 (JObj created), w') /\
    get_application get w' = (json 200 (JObj created), w').
Proof.
  intros Hw Hv Hid Hfresh Hget. eexists. eexists. split.
  - by apply post_application_valid.
  - apply get_application_present. unfold stored. cbn [disk default from_option id].
    rewrite Hget. apply find_app_last; [exact Hfresh|].
    unfold has_id. rewrite spread_lookup_target, lookup_singleton_eq by done.
    apply eqb_refl, of_Z_not_nan.
Qed.

(** X6. Update then Get: when the body has no id of its own, or the id of the
    path, Get of the same id answers 200 with the record that Update
    returned. *)
Theorem update_then_get_returns_updated req w a :
  write_fault w = None ->
  passes (body req) = true ->
  a ∈ stored w ->
  has_id (parseInt (params_id req)) a = true ->
  body req !! "id" = None \/
  strict_eq (body req !! "id") (Some (JNum (parseInt (params_id req)))) = true ->
  exists updated w',
    put_application req w = (json 200 (JObj updated), w') /\
    get_application req w' = (json 200 (JObj updated), w').
Proof.
  intros Hw Hv Ha Hid Hbody.
  destruct (present_findIndex _ _ a Ha Hid) as (index & Hi).
  eexists. eexists. split.
  - by apply (put_application_valid _ _ index).
  - apply get_application_present. unfold stored at 1. cbn [disk default from_option id].
    apply find_insert_first; [done|].
    destruct Hbody as [Hnone|Hsame].
    + apply (has_id_refl _ a); [done|].
      rewrite spread_lookup_target by done. apply lookup_singleton_eq.
    + unfold has_id. destruct (body req !! "id") as [v|] eqn:Hb; [|done].
      by rewrite (spread_lookup_source _ _ _ v).
Qed.

(** X7. Update rewrites exactly one record, the first that carries the id:
    the collection keeps its length and every other position, later
    records of the same id included. *)
Theorem update_replaces_first_match_only req w a :
  write_fault w = None ->
  passes (body req) = true ->
  a ∈ stored w ->
  has_id (parseInt (params_id req)) a = true ->
  exists index old updated,
    put_application req w =
      (json 200 (JObj updated),
       World (Some (<[index := updated]> (stored w))) None (clock w)) /\
    stored w !! index = Some old /\
    has_id (parseInt (params_id req)) old = true /\
    (forall j b, (j < index)%nat -> stored w !! j = Some b ->
                 has_id (parseInt (params_id req)) b = false) /\
    length (<[index := updated]> (stored w)) = length (stored w) /\
    (forall j, j <> index -> <[index := updated]> (stored w) !! j = stored w !! j).
Proof.
  intros Hw Hv Ha Hid.
  destruct (present_findIndex _ _ a Ha Hid) as (index & Hi).
  destruct (findIndex_Some _ _ _ Hi) as (old & Hold & Hp).
  exists index, old. eexists. split; [by apply (put_application_valid _ _ index)|].
  split; [done|]. split; [done|]. split; [by apply findIndex_first|].
  split; [apply length_insert|]. intros j Hj. by apply list_lookup_insert_ne.
Qed.

(** X8. A body that validation does not let through is answered by Create
    and by Update alike before the file is read, and the world stays as it
    was, whether the id exists or not: with 400 and the error list, which
    is not empty, when validation returns; with 500 and the message of the
    error when [Date.parse] throws in the validation. *)
Theorem invalid_body_rejected_before_lookup req w :
  passes (body req) = false ->
  (forall validation,
     validateApplication (body req) = Ok validation ->
     post_application req w = (json 400 (validation_failed validation), w) /\
     put_application req w = (json 400 (validation_failed validation), w) /\
     errors validation <> []) /\
  (forall e,
     validateApplication (body req) = Throw e ->
     post_application req w =
       (json 500 (JObj {[ "error" := JStr "Failed to create application";
                          "message" := JStr e ]}), w) /\
     put_application req w =
       (json 500 (JObj {[ "error" := JStr "Failed to update application";
                          "message" := JStr e ]}), w)).
Proof.
  intros Hv. split.
  - intros validation Hval.
    assert (isValid validation = false) as Hi.
    { unfold passes in Hv. by rewrite Hval in Hv. }
    split; [by apply post_application_invalid|].
    split; [by apply put_application_invalid|].
    intros He. apply (validateApplication_isValid _ _ Hval) in He. congruence.
  - intros e Hval. split.
    + by apply post_application_throws.
    + by apply put_application_throws.
Qed.

(** X9. When [fs.writeFile] fails on opening the file, Update and Delete of
    an existing id answer 500 with their own error and the message of the
    fault, and the world stays as it was. *)
Theorem write_fault_answers_500 req w a message :
  write_fault w = Some message ->
  a ∈ stored w ->
  has_id (parseInt (params_id req)) a = true ->
  (passes (body req) = true ->
   put_application req w =
     (json 500 (JObj {[ "error" := JStr "Failed to update application";
                        "message" := JStr message ]}), w)) /\
  delete_application req w =
    (json 500 (JObj {[ "error" := JStr "Failed to delete application";
                       "message" := JStr message ]}), w).
Proof.
  intros Hw Ha Hid. split.
  - intros Hv. destruct (present_findIndex _ _ a Ha Hid) as (index & Hi).
    by apply (put_application_write_fails _ _ index).
  - rewrite (delete_application_present _ _ a) by done. by rewrite Hw.
Qed.

(** X10. The three writing routes keep the file validated: if every stored
    record passes validation before a Create, Update or Delete request,
    whatever the request, every stored record passes it afterwards. *)
Theorem writes_keep_records_validated req w :
  validated w ->
  validated (snd (post_application req w)) /\
  validated (snd (put_application req w)) /\
  validated (snd (delete_application req w)).
Proof.
  intros Hval. split; [|split].
  - destruct (post_application_world req w) as [-> | [Hv ->]]; [done|].
    unfold validated, stored. cbn [disk default from_option id].
    apply Forall_app. split; [exact Hval|].
    constructor; [|constructor].
    unfold passes. by rewrite validateApplication_spread_id.
  - destruct (put_application_world req w) as [-> | [Hv (index & _ & ->)]]; [done|].
    unfold validated, stored at 1. cbn [disk default from_option id].
    apply Forall_insert; [exact Hval|].
    unfold passes. by rewrite validateApplication_spread_id.
  - destruct (delete_application_world req w) as [-> | ->]; [done|].
    unfold validated, stored at 1. cbn [disk default from_option id].
    unfold validated in Hval. rewrite Forall_forall in *. intros b Hb.
    apply Hval. apply list_elem_of_In, filter_In in Hb as [Hb _].
    by apply list_elem_of_In.
Qed.

(** X11. Create on a data file that cannot be read starts the file over: the
    answer is 201 and the file then holds the new record alone; Update
    and Delete answer 404 there and leave the world as it was. *)
Theorem create_on_unreadable_file_starts_over req w :
  disk w = None ->
  write_fault w = None ->
  passes (body req) = true ->
  (exists created,
     post_application req w =
       (json 201 (JObj created), World (Some [created]) None (clock w))) /\
  put_application req w = (json 404 (not_found req), w) /\
  delete_application req w = (json 404 (not_found req), w).
Proof.
  intros Hd Hw Hv. split; [|split].
  - eexists. rewrite post_application_valid by done. by rewrite Hd.
  - apply put_application_absent; [done|]. rewrite Hd. constructor.
  - apply delete_application_absent. unfold stored. rewrite Hd. constructor.
Qed.

Lemma count_status_partition (apps : list obj) :
  Forall (fun a => Stated.enumerated_status (a !! "status")) apps ->
  (count_status "Applied" apps + count_status "Interview" apps +
   count_status "Offer" apps + count_status "Rejected" apps)%nat = length apps.
Proof.
  unfold count_status.
  induction 1 as [|a apps Ha _ IH]; [done|]. cbn [List.filter].
  assert (forall s t, a !! "status" = Some (JStr s) ->
                      has_status t a = bool_decide (s = t)) as Hs.
  { intros s t Hst. unfold has_status. by rewrite Hst. }
  destruct Ha as [Ha | [Ha | [Ha | Ha]]]; rewrite !(Hs _ _ Ha);
    cbn [bool_decide decide_rel]; simpl; lia.
Qed.

(** X12. On a validated file the total of the statistics is the sum of the
    four counts: every record is counted under exactly one status. *)
Theorem stats_total_is_sum_of_counts req w :
  validated w ->
  exists (applied interview offer rejected : nat) stats,
    get_stats req w = (json 200 (JObj stats), w) /\
    stats !! "applied" = Some (JNum (JsNumber.of_nat applied)) /\
    stats !! "interview" = Some (JNum (JsNumber.of_nat interview)) /\
    stats !! "offer" = Some (JNum (JsNumber.of_nat offer)) /\
    stats !! "rejected" = Some (JNum (JsNumber.of_nat rejected)) /\
    stats !! "total" =
      Some (JNum (JsNumber.of_nat (applied + interview + offer + rejected))).
Proof.
  intros Hval.
  exists (count_status "Applied" (stored w)), (count_status "Interview" (stored w)),
         (count_status "Offer" (stored w)), (count_status "Rejected" (stored w)).
  eexists. split; [apply get_stats_run|].
  repeat (split; [reflexivity|]).
  rewrite count_status_partition; [reflexivity|].
  eapply Forall_impl; [exact Hval|]. intros a Ha. simpl in Ha.
  apply validateApplication_valid_iff in Ha as (_ & _ & _ & Hs).
  by apply status_missing_false.
Qed.


(** X14. Validation looks at [company], [role], [date] and [status] only:
    setting or removing any other property of the object leaves its
    result, verdict and messages, the same. *)
Theorem validation_ignores_other_fields (data : obj) k v :
  k ∉ ["company"; "role"; "date"; "status"] ->
  validateApplication (<[k := v]> data) = validateApplication data /\
  validateApplication (delete k data) = validateApplication data.
Proof.
  intros Hk.
  assert (k <> "company" /\ k <> "role" /\ k <> "date" /\ k <> "status")
    as (Hc & Hr & Hd & Hs).
  { repeat split; intros ->; apply Hk; repeat constructor. }
  split; apply validateApplication_ext;
    by rewrite ?lookup_insert_ne, ?lookup_delete_ne.
Qed.

End ServerExtras.

(** ** Sorted lists *)

Section SortedFacts.
Context {A : Type} (key : A -> Z).

Lemma StronglySorted_snoc (R : A -> A -> Prop) (l : list A) (x : A) :
  StronglySorted R l -> Forall (fun y => R y x) l -> StronglySorted R (l ++ [x]).
Proof.
  induction 1 as [|y l Hs IH Hall]; intros Hx; simpl.
  - repeat constructor.
  - apply Forall_cons in Hx as [Hyx Hx]. constructor; [by apply IH|].
    apply Forall_app. split; [done|]. by constructor.
Qed.

Lemma StronglySorted_rev_flip (R : A -> A -> Prop) (l : list A) :
  StronglySorted R l -> StronglySorted (fun a b => R b a) (rev l).
Proof.
  induction 1 as [|x l Hs IH Hall]; simpl; [constructor|].
  apply StronglySorted_snoc; [done|]. by apply Forall_rev.
Qed.

(** Two sorted arrangements of records with pairwise distinct keys are
    the same list. *)
Lemma sorted_perm_unique (l1 l2 : list A) :
  l1 ≡ₚ l2 ->
  NoDup (key <$> l1) ->
  StronglySorted (fun a b => key a <= key b) l1 ->
  StronglySorted (fun a b => key a <= key b) l2 ->
  l1 = l2.
Proof.
  revert l2. induction l1 as [|x l1 IH]; intros l2 Hp Hnd H1 H2.
  - by apply Permutation_nil in Hp.
  - destruct l2 as [|y l2]; [by apply Permutation_sym, Permutation_nil_cons in Hp|].
    apply StronglySorted_inv in H1 as [H1 Hx], H2 as [H2 Hy].
    rewrite fmap_cons in Hnd. apply NoDup_cons in Hnd as [Hfresh Hnd].
    assert (x = y) as <-.
    { assert (x ∈ y :: l2) as Hxin by (rewrite <- Hp; apply list_elem_of_here).
      assert (y ∈ x :: l1) as Hyin by (rewrite Hp; apply list_elem_of_here).
      apply elem_of_cons in Hxin as [?|Hxin]; [done|].
      apply elem_of_cons in Hyin as [?|Hyin]; [done|].
      rewrite Forall_forall in Hx, Hy.
      specialize (Hx y Hyin). specialize (Hy x Hxin).
      exfalso. apply Hfresh. replace (key x) with (key y) by lia.
      by apply list_elem_of_fmap_2. }
    f_equal. apply IH; [by apply Permutation_cons_inv in Hp|done..].
Qed.

End SortedFacts.

(** ** The client beyond the claims *)

Section ClientExtras.
Context `{Host}.
Import JsValue Client.

(** The records that the two filters keep. *)
Lemma filteredApps_typed apps filterStatus searchTerm sortOrder :
  searchTerm = "" \/ Forall Stated.typed_record apps ->
  exists selected,
    Stated.narrowed
      (fun a => (filterStatus = "All" \/ Stated.status_is filterStatus a) /\
                (searchTerm = "" \/ Stated.company_or_role_contains searchTerm a))
      apps selected /\
    filteredApps apps filterStatus searchTerm sortOrder =
      Ok (JsArray.sort (compare_dates sortOrder) selected).
Proof.
  intros Htyped. unfold filteredApps.
  set (byStatus := if negb (bool_decide (filterStatus = "All"))
                   then List.filter (has_status filterStatus) apps else apps).
  assert (Stated.narrowed
            (fun a => filterStatus = "All" \/ Stated.status_is filterStatus a)
            apps byStatus) as Hn1.
  { subst byStatus. destruct (bool_decide (filterStatus = "All")) eqn:Hall; simpl.
    - apply narrowed_all. intros a _. left. by apply bool_decide_eq_true in Hall.
    - apply bool_decide_eq_false in Hall. apply narrowed_filter. intros a _.
      unfold has_status. rewrite strict_eq_string. unfold Stated.status_is. tauto. }
  assert (exists selected,
            (if negb (bool_decide (searchTerm = ""))
             then filter_throwing (matches_search searchTerm) byStatus
             else Ok byStatus) = Ok selected /\
            Stated.narrowed
              (fun a => searchTerm = "" \/ Stated.company_or_role_contains searchTerm a)
              byStatus selected) as (selected & -> & Hn2).
  { destruct (bool_decide (searchTerm = "")) eqn:Hterm; simpl.
    - exists byStatus. split; [done|]. apply narrowed_all. intros a _. left.
      by apply bool_decide_eq_true in Hterm.
    - apply bool_decide_eq_false in Hterm. destruct Htyped as [?|Htyped]; [done|].
      destruct (filter_throwing_typed searchTerm byStatus) as (selected & Hrun & Hn).
      { by eapply narrowed_Forall. }
      exists selected. split; [done|].
      eapply narrowed_iff; [|exact Hn]. intros a. simpl. tauto. }
  exists selected. split; [|reflexivity].
  exact (narrowed_twice _ _ _ _ _ Hn1 Hn2).
Qed.

Lemma filter_throwing_throws {A : Type} (p : A -> outcome bool) (l : list A) a e :
  a ∈ l -> p a = Throw e -> exists e', filter_throwing p l = Throw e'.
Proof.
  intros Ha Hp. induction l as [|x l IH]; [by apply elem_of_nil in Ha|]. simpl.
  apply elem_of_cons in Ha as [<-|Ha].
  - rewrite Hp. by exists e.
  - destruct (p x) as [keep|e0]; simpl; [|by exists e0].
    destruct (IH Ha) as (e' & ->). by exists e'.
Qed.

(** X17. A search over a record that has no string as its company makes the
    effect throw: if a record that passes the status filter has a company
    that is missing or not a string, every non-empty search term ends in
    an exception and no view is set. *)
Theorem search_throws_without_company apps filterStatus searchTerm sortOrder a :
  searchTerm <> "" ->
  a ∈ apps ->
  filterStatus = "All" \/ Stated.status_is filterStatus a ->
  is_string (a !! "company") = false ->
  exists e, filteredApps apps filterStatus searchTerm sortOrder = Throw e.
Proof.
  intros Hterm Ha Hstatus Hcompany. unfold filteredApps.
  rewrite bool_decide_eq_false_2 by done. cbn [negb].
  set (byStatus := if negb (bool_decide (filterStatus = "All"))
                   then List.filter (has_status filterStatus) apps else apps).
  assert (a ∈ byStatus) as Hin.
  { subst byStatus. destruct (bool_decide (filterStatus = "All")) eqn:Hall; simpl; [done|].
    apply bool_decide_eq_false in Hall. destruct Hstatus as [?|Hs]; [done|].
    apply list_elem_of_In, filter_In. split; [by apply list_elem_of_In|].
    unfold has_status. by apply strict_eq_string. }
  destruct (filter_throwing_throws (matches_search searchTerm) byStatus a "TypeError" Hin)
    as (e & ->).
  - unfold matches_search. by destruct (a !! "company") as [[| | |c| |]|].
  - by exists e.
Qed.

Lemma compare_dates_direction sortOrder a b :
  compare_dates sortOrder a b =
    if negb (bool_decide (sortOrder = "desc"))
    then JsDate.sub (Date_new (a !! "date")) (Date_new (b !! "date"))
    else JsDate.sub (Date_new (b !! "date")) (Date_new (a !! "date")).
Proof. unfold compare_dates. by destruct (bool_decide (sortOrder = "desc")). Qed.

Lemma toggleSort_direction sortOrder :
  bool_decide (Form.toggleSort sortOrder = "desc") =
  negb (bool_decide (sortOrder = "desc")).
Proof. unfold Form.toggleSort. by destruct (bool_decide (sortOrder = "desc")). Qed.

(** X18. The sort toggle reverses the view: when the dates are valid and no
    two records share a date, the view for the toggled order is the
    reverse of the view for the current order. *)
Theorem toggle_reverses_view apps filterStatus searchTerm sortOrder :
  searchTerm = "" \/ Forall Stated.typed_record apps ->
  Forall Stated.dated apps ->
  NoDup (Stated.time_of <$> apps) ->
  exists view,
    filteredApps apps filterStatus searchTerm sortOrder = Ok view /\
    filteredApps apps filterStatus searchTerm (Form.toggleSort sortOrder) = Ok (rev view).
Proof.
  intros Htyped Hdated Hdistinct.
  destruct (filteredApps_typed apps filterStatus searchTerm sortOrder Htyped)
    as (selected & Hn & Hrun).
  destruct (filteredApps_typed apps filterStatus searchTerm (Form.toggleSort sortOrder) Htyped)
    as (selected' & Hn' & Hrun').
  assert (selected' = selected) as -> by (by eapply narrowed_unique).
  eexists. split; [exact Hrun|]. rewrite Hrun'. f_equal.
  assert (Forall Stated.dated selected) as Hsel by (by eapply narrowed_Forall).
  assert (NoDup (Stated.time_of <$> selected)) as Hnd.
  { clear -Hn Hdistinct. induction Hn as [|x l l' Hx Hn IH|x l l' Hx Hn IH]; [done| |].
    - rewrite !fmap_cons in *. apply NoDup_cons in Hdistinct as [Hfresh Hd].
      apply NoDup_cons. split; [|by apply IH]. intros Hin. apply Hfresh.
      apply list_elem_of_fmap in Hin as (y & -> & Hy).
      apply list_elem_of_fmap_2. by eapply narrowed_elem.
    - rewrite fmap_cons in Hdistinct. apply NoDup_cons in Hdistinct as [_ Hd].
      by apply IH. }
  pose proof (sort_sorts_by_date (compare_dates sortOrder)
                (negb (bool_decide (sortOrder = "desc"))) selected Hsel
                (compare_dates_direction sortOrder)) as (Hp & Hs & _).
  pose proof (sort_sorts_by_date (compare_dates (Form.toggleSort sortOrder))
                (negb (bool_decide (Form.toggleSort sortOrder = "desc"))) selected Hsel
                (compare_dates_direction _)) as (Hp' & Hs' & _).
  rewrite toggleSort_direction in Hs'.
  destruct (bool_decide (sortOrder = "desc")); cbn [negb] in Hs, Hs'.
  - apply (sorted_perm_unique Stated.time_of).
    + transitivity selected; [exact Hp'|].
      transitivity (JsArray.sort (compare_dates sortOrder) selected);
        [by symmetry|apply Permutation_rev].
    + by rewrite Hp'.
    + exact Hs'.
    + apply (StronglySorted_rev_flip _ _ Hs).
  - apply (sorted_perm_unique (fun a => - Stated.time_of a)).
    + transitivity selected; [exact Hp'|].
      transitivity (JsArray.sort (compare_dates sortOrder) selected);
        [by symmetry|apply Permutation_rev].
    + rewrite Hp'.
      replace ((fun a => - Stated.time_of a) <$> selected)
        with (Z.opp <$> (Stated.time_of <$> selected))
        by (by rewrite <- list_fmap_compose).
      assert (Inj (=) (=) Z.opp) as Hinj by (intros x y ?; lia).
      by apply (NoDup_fmap_2 Z.opp).
    + eapply StronglySorted_weaken; [|exact Hs']. intros a b; simpl. lia.
    + eapply StronglySorted_weaken; [|apply (StronglySorted_rev_flip _ _ Hs)].
      intros a b; simpl. lia.
Qed.

End ClientExtras.

(** ** The form *)

Section FormFacts.
Import JsValue Form.

Lemma edit_snoc changes f value st :
  edit (changes ++ [(f, value)]) st = onChange f value (edit changes st).
Proof. unfold edit. by rewrite foldl_app. Qed.

Lemma edit_editingApp changes st : editingApp (edit changes st) = editingApp st.
Proof.
  induction changes as [|[f value] changes IH] using rev_ind; [done|].
  by rewrite edit_snoc.
Qed.

Lemma onChange_other f value st k :
  (forall f', k <> field_name f') ->
  formData (onChange f value st) !! k = formData st !! k.
Proof.
  intros Hk. cbn [onChange formData]. unfold spread.
  rewrite lookup_union_r; [done|]. apply lookup_singleton_ne. intros Heq. by apply (Hk f).
Qed.

Lemma edit_other changes st k :
  (forall f, k <> field_name f) ->
  formData (edit changes st) !! k = formData st !! k.
Proof.
  intros Hk. induction changes as [|[f value] changes IH] using rev_ind; [done|].
  rewrite edit_snoc, onChange_other by done. exact IH.
Qed.

Lemma id_is_no_field f : "id" <> field_name f.
Proof. by destruct f. Qed.

Lemma onChange_string f value st f' :
  is_string (formData st !! field_name f') = true ->
  is_string (formData (onChange f value st) !! field_name f') = true.
Proof.
  intros Hs. cbn [onChange formData]. unfold spread.
  destruct (decide (field_name f = field_name f')) as [Heq|Hne].
  - rewrite (lookup_union_Some_l _ _ _ (JStr value)); [done|].
    rewrite Heq. apply lookup_singleton_eq.
  - rewrite lookup_union_r; [done|]. by apply lookup_singleton_ne.
Qed.

Lemma onChange_dom f value st :
  field_name f ∈ dom (formData st) ->
  dom (formData (onChange f value st)) = dom (formData st).
Proof.
  intros Hin. cbn [onChange formData]. unfold spread.
  rewrite dom_union_L, dom_singleton_L.
  apply subseteq_union_1_L. by apply singleton_subseteq_l.
Qed.

Lemma blank_dom today f : field_name f ∈ dom (blank today).
Proof. apply elem_of_dom. destruct f; by eexists. Qed.

Lemma blank_string today f : is_string (blank today !! field_name f) = true.
Proof. by destruct f. Qed.

(** X19. A form that the server would accept is never held back by the
    client: when the form data passes [validateApplication],
    [handleSubmit] issues a call and closes the form. *)
Theorem valid_form_is_submitted `{Host} st :
  Server.passes (formData st) = true ->
  exists c, handleSubmit st = (Some c, closeModal st).
Proof.
  intros Hv. apply validateApplication_valid_iff in Hv as (Hc & Hr & Hd & _).
  unfold Server.text_missing, Server.date_missing in *.
  apply orb_false_iff in Hc as [Hc _], Hr as [Hr _].
  destruct (negb (ToBoolean (formData st !! "date"))) eqn:Hd'; [done|].
  unfold handleSubmit. rewrite Hc, Hr, Hd'. simpl. by eexists.
Qed.

(** X20. An edit is sent under the id of the record that was opened, and
    carries that id: after [openModal(app)] and any changes of the
    inputs, a submission that goes through is
    [updateApplication(app.id, body)] where [body] has the id, and every
    other property outside the six inputs, of [app]. *)
Theorem edit_is_sent_with_id_of_record today app changes st c :
  fst (handleSubmit (edit changes (openModal today (Some app) st))) = Some c ->
  exists body,
    c = updateApplication (app !! "id") body /\
    body !! "id" = app !! "id" /\
    (forall k, (forall f, k <> field_name f) -> body !! k = app !! k) /\
    showModal (snd (handleSubmit (edit changes (openModal today (Some app) st)))) = false.
Proof.
  unfold handleSubmit.
  destruct (negb _ || negb _ || negb _); [done|]. cbn [fst snd].
  rewrite edit_editingApp. cbn [openModal editingApp].
  intros [= <-]. eexists. split; [reflexivity|]. split; [|split; [|done]].
  - rewrite edit_other by apply id_is_no_field. done.
  - intros k Hk. by rewrite edit_other.
Qed.

(** X21. A new application is sent without an id: after [openModal()] and any
    changes of the inputs, a submission that goes through is
    [createApplication(body)] where [body] has exactly the six inputs,
    each a string. *)
Theorem new_form_is_sent_without_id today changes st c :
  fst (handleSubmit (edit changes (openModal today None st))) = Some c ->
  exists body,
    c = createApplication body /\
    body !! "id" = None /\
    dom body = dom (blank today) /\
    (forall f, is_string (body !! field_name f) = true).
Proof.
  unfold handleSubmit.
  destruct (negb _ || negb _ || negb _); [done|]. cbn [fst].
  rewrite edit_editingApp. cbn [openModal editingApp].
  intros [= <-]. eexists. split; [reflexivity|]. split; [|split].
  - rewrite edit_other by apply id_is_no_field. done.
  - induction changes as [|[f value] changes IH] using rev_ind; [done|].
    rewrite edit_snoc, onChange_dom; [exact IH|]. rewrite IH. apply blank_dom.
  - intros f'. induction changes as [|[f value] changes IH] using rev_ind.
    + apply blank_string.
    + rewrite edit_snoc. by apply onChange_string.
Qed.

End FormFacts.

(** ** The status timeline *)

Section TimelineFacts.
Import Timeline.

(** X22. A node of the timeline is active exactly when it is not after the
    current status on the timeline; for a status that is not on the
    timeline no node is active. *)
Theorem isActive_iff_up_to_current currentStatus index :
  isActive currentStatus index = true <->
  exists i, timeline currentStatus !! i = Some currentStatus /\ (index <= i)%nat.
Proof.
  unfold isActive, currentIndex, timeline, rejectedStatuses, statuses.
  rewrite Z.leb_le.
  assert (forall (l : list string) k,
            (exists i, l !! i = Some currentStatus /\ (index <= i)%nat) ->
            l = ["Applied"; "Interview"; "Offer"] \/
            l = ["Applied"; "Interview"; "Rejected"] ->
            l !! k = Some currentStatus -> (index <= k)%nat) as Hpos.
  { intros l k (i & Hl & Hi) Hlist Hk.
    assert (i = k) as <-; [|done].
    destruct Hlist as [-> | ->];
      destruct i as [|[|[|i]]], k as [|[|[|k]]]; simplify_eq/=; done. }
  destruct (bool_decide (currentStatus = "Rejected")) eqn:Hr.
  - apply bool_decide_eq_true in Hr as ->.
    change (indexOf ["Applied"; "Interview"; "Rejected"] "Rejected") with 2.
    split.
    + intros Hi. exists 2%nat. split; [done|lia].
    + intros Hex. specialize (Hpos _ 2%nat Hex (or_intror eq_refl) eq_refl). lia.
  - apply bool_decide_eq_false in Hr. cbn [indexOf].
    destruct (bool_decide ("Applied" = currentStatus)) eqn:Ha.
    { apply bool_decide_eq_true in Ha as <-. split.
      - intros Hi. exists 0%nat. split; [done|lia].
      - intros Hex. specialize (Hpos _ 0%nat Hex (or_introl eq_refl) eq_refl). lia. }
    destruct (bool_decide ("Interview" = currentStatus)) eqn:Hi.
    { apply bool_decide_eq_true in Hi as <-. split.
      - intros Hle. exists 1%nat. split; [done|]. simpl in Hle. lia.
      - intros Hex. specialize (Hpos _ 1%nat Hex (or_introl eq_refl) eq_refl).
        simpl. lia. }
    destruct (bool_decide ("Offer" = currentStatus)) eqn:Ho.
    { apply bool_decide_eq_true in Ho as <-. split.
      - intros Hle. exists 2%nat. split; [done|]. simpl in Hle. lia.
      - intros Hex. specialize (Hpos _ 2%nat Hex (or_introl eq_refl) eq_refl).
        simpl. lia. }
    apply bool_decide_eq_false in Ha, Hi, Ho. simpl. split; [lia|].
    intros ([|[|[|i]]] & Hl & Hle); simplify_eq/=.
Qed.

End TimelineFacts.

(** ** [initDataFile] *)

Section BootFacts.
Import Boot.

(** X23. [initDataFile] never rewrites a file it can access, whatever the file
    holds, so a file that cannot be parsed stays so; it writes the sample
    data only when the file cannot be accessed; and once it has run, a
    second run changes nothing. *)
Theorem initDataFile_never_overwrites fault f f' :
  initDataFile fault f = Ok f' ->
  (forall content, f = Accessible content -> f' = Accessible content) /\
  (f = Inaccessible -> f' = Accessible (Some Sample.sampleData)) /\
  (forall fault', initDataFile fault' f' = Ok f').
Proof.
  destruct f as [|content]; simpl.
  - destruct fault; [done|]. intros [= <-]. by repeat split.
  - intros [= <-]. repeat split; [|done]. by intros content' [= ->].
Qed.

End BootFacts.

(** * Further concrete runs *)

Lemma netflix_is_stored : Probe.netflix ∈ Invariant.stored Runs.initial.
Proof. do 2 apply list_elem_of_further. apply list_elem_of_here. Defined.

Lemma initial_is_validated : Invariant.validated Runs.initial.
Proof. repeat (constructor; [reflexivity|]). constructor. Defined.

Lemma sample_is_typed : Forall Stated.typed_record Sample.sampleData.
Proof. repeat (constructor; [split; reflexivity|]). constructor. Defined.

Lemma sample_is_dated : Forall Stated.dated Sample.sampleData.
Proof. repeat (constructor; [eexists; reflexivity|]). constructor. Defined.

(** DELETE /api/applications/42 on the initial data file. *)
Lemma delete_absent_id_not_found_witness :
  Forall (fun a => Server.has_id (parseInt (params_id Probe.at_42)) a = false)
         (Invariant.stored Runs.initial) /\
  Server.delete_application Probe.at_42 Runs.initial =
    (Server.json 404 (Server.not_found Probe.at_42), Runs.initial).
Proof.
  assert (Forall (fun a => Server.has_id (parseInt (params_id Probe.at_42)) a = false)
                 (Invariant.stored Runs.initial)) as Habsent.
  { repeat (constructor; [reflexivity|]). constructor. }
  split; [exact Habsent|].
  exact (delete_absent_id_not_found Probe.at_42 Runs.initial Habsent).
Defined.

(** DELETE /api/applications/3 on the initial data file. *)
Lemma delete_removes_every_record_with_id_witness :
  write_fault Runs.initial = None /\
  Probe.netflix ∈ Invariant.stored Runs.initial /\
  Server.has_id (parseInt (params_id Probe.at_3)) Probe.netflix = true /\
  exists remaining,
    Server.delete_application Probe.at_3 Runs.initial =
      (Server.json 200 (JObj {[ "success" := JBool true;
                                "message" := JStr "Application deleted successfully";
                                "id" := JNum (parseInt (params_id Probe.at_3)) ]}),
       World (Some remaining) None (clock Runs.initial)) /\
    Stated.narrowed (fun b => Server.has_id (parseInt (params_id Probe.at_3)) b = false)
      (Invariant.stored Runs.initial) remaining /\
    (length remaining < length (Invariant.stored Runs.initial))%nat.
Proof.
  split; [reflexivity|]. split; [exact netflix_is_stored|]. split; [reflexivity|].
  exact (delete_removes_every_record_with_id Probe.at_3 Runs.initial Probe.netflix
           eq_refl netflix_is_stored eq_refl).
Defined.

Lemma delete_then_not_found_witness :
  Server.get_application Probe.at_3 (snd (Server.delete_application Probe.at_3 Runs.initial)) =
    (Server.json 404 (Server.not_found Probe.at_3),
     snd (Server.delete_application Probe.at_3 Runs.initial)) /\
  Server.delete_application Probe.at_3 (snd (Server.delete_application Probe.at_3 Runs.initial)) =
    (Server.json 404 (Server.not_found Probe.at_3),
     snd (Server.delete_application Probe.at_3 Runs.initial)).
Proof.
  exact (delete_then_not_found Probe.at_3 Runs.initial Probe.netflix
           eq_refl netflix_is_stored eq_refl).
Defined.

(** GET /api/applications/3 on the initial data file. *)
Lemma get_returns_first_record_with_id_witness :
  exists index found,
    Server.get_application Probe.at_3 Runs.initial =
      (Server.json 200 (JObj found), Runs.initial) /\
    Invariant.stored Runs.initial !! index = Some found /\
    Server.has_id (parseInt (params_id Probe.at_3)) found = true /\
    (forall j b, (j < index)%nat -> Invariant.stored Runs.initial !! j = Some b ->
                 Server.has_id (parseInt (params_id Probe.at_3)) b = false).
Proof.
  exact (get_returns_first_record_with_id Probe.at_3 Runs.initial Probe.netflix
           netflix_is_stored eq_refl).
Defined.

(** The example record created in the initial data file, then fetched
    under the reading of the clock. *)
Lemma create_then_get_returns_created_witness :
  exists created w',
    Server.post_application Runs.create_acme Runs.initial =
      (Server.json 201 (JObj created), w') /\
    Server.get_application Probe.at_clock w' = (Server.json 200 (JObj created), w').
Proof.
  apply (create_then_get_returns_created Runs.create_acme Probe.at_clock Runs.initial);
    try reflexivity.
  repeat (constructor; [reflexivity|]). constructor.
Defined.

(** PUT /api/applications/3 with the example record, then GET of the same
    id. *)
Lemma update_then_get_returns_updated_witness :
  exists updated w',
    Server.put_application Probe.update_3 Runs.initial =
      (Server.json 200 (JObj updated), w') /\
    Server.get_application Probe.update_3 w' = (Server.json 200 (JObj updated), w').
Proof.
  exact (update_then_get_returns_updated Probe.update_3 Runs.initial Probe.netflix
           eq_refl eq_refl netflix_is_stored eq_refl (or_introl eq_refl)).
Defined.

Lemma update_replaces_first_match_only_witness :
  exists index old updated,
    Server.put_application Probe.update_3 Runs.initial =
      (Server.json 200 (JObj updated),
       World (Some (<[index := updated]> (Invariant.stored Runs.initial))) None
             (clock Runs.initial)) /\
    Invariant.stored Runs.initial !! index = Some old /\
    Server.has_id (parseInt (params_id Probe.update_3)) old = true /\
    (forall j b, (j < index)%nat -> Invariant.stored Runs.initial !! j = Some b ->
                 Server.has_id (parseInt (params_id Probe.update_3)) b = false) /\
    length (<[index := updated]> (Invariant.stored Runs.initial)) =
      length (Invariant.stored Runs.initial) /\
    (forall j, j <> index ->
               <[index := updated]> (Invariant.stored Runs.initial) !! j =
               Invariant.stored Runs.initial !! j).
Proof.
  exact (update_replaces_first_match_only Probe.update_3 Runs.initial Probe.netflix
           eq_refl eq_refl netflix_is_stored eq_refl).
Defined.

(** PUT and POST with an empty body. *)
Lemma invalid_body_rejected_before_lookup_witness :
  Server.passes (body Runs.create_nothing) = false /\
  exists validation,
    Server.validateApplication (body Runs.create_nothing) = Ok validation /\
    Server.post_application Runs.create_nothing Runs.initial =
      (Server.json 400 (Server.validation_failed validation), Runs.initial) /\
    Server.put_application Runs.create_nothing Runs.initial =
      (Server.json 400 (Server.validation_failed validation), Runs.initial) /\
    errors validation <> [].
Proof.
  split; [reflexivity|].
  eexists. split; [reflexivity|].
  exact (proj1 (invalid_body_rejected_before_lookup
                  Runs.create_nothing Runs.initial eq_refl) _ eq_refl).
Defined.

(** PUT and DELETE of record 3 on a disk that refuses the write. *)
Lemma write_fault_answers_500_witness :
  (Server.passes (body Probe.update_3) = true ->
   Server.put_application Probe.update_3 Probe.read_only =
     (Server.json 500 (JObj {[ "error" := JStr "Failed to update application";
                               "message" := JStr "EACCES: permission denied" ]}),
      Probe.read_only)) /\
  Server.delete_application Probe.update_3 Probe.read_only =
    (Server.json 500 (JObj {[ "error" := JStr "Failed to delete application";
                              "message" := JStr "EACCES: permission denied" ]}),
     Probe.read_only).
Proof.
  exact (write_fault_answers_500 Probe.update_3 Probe.read_only Probe.netflix
           "EACCES: permission denied" eq_refl netflix_is_stored eq_refl).
Defined.

Lemma writes_keep_records_validated_witness :
  Invariant.validated (snd (Server.post_application Runs.create_acme Runs.initial)) /\
  Invariant.validated (snd (Server.put_application Runs.create_acme Runs.initial)) /\
  Invariant.validated (snd (Server.delete_application Runs.create_acme Runs.initial)).
Proof.
  exact (writes_keep_records_validated Runs.create_acme Runs.initial initial_is_validated).
Defined.

Lemma stats_total_is_sum_of_counts_witness :
  exists (applied interview offer rejected : nat) stats,
    Server.get_stats Runs.list_all Runs.initial =
      (Server.json 200 (JObj stats), Runs.initial) /\
    stats !! "applied" = Some (JNum (JsNumber.of_nat applied)) /\
    stats !! "interview" = Some (JNum (JsNumber.of_nat interview)) /\
    stats !! "offer" = Some (JNum (JsNumber.of_nat offer)) /\
    stats !! "rejected" = Some (JNum (JsNumber.of_nat rejected)) /\
    stats !! "total" =
      Some (JNum (JsNumber.of_nat (applied + interview + offer + rejected))).
Proof.
  exact (stats_total_is_sum_of_counts Runs.list_all Runs.initial initial_is_validated).
Defined.

Lemma validation_ignores_other_fields_witness :
  Server.validateApplication (<[ "notes" := JNull ]> Runs.acme) =
    Server.validateApplication Runs.acme /\
  Server.validateApplication (delete "notes" Runs.acme) =
    Server.validateApplication Runs.acme.
Proof.
  apply (validation_ignores_other_fields Runs.acme "notes" JNull).
  intros Hin. repeat (apply elem_of_cons in Hin as [Hin|Hin]; [discriminate Hin|]).
  by apply elem_of_nil in Hin.
Defined.



(** The same collection searched for "x". *)
Lemma search_throws_without_company_witness :
  exists e,
    Client.filteredApps (Probe.nameless :: Sample.sampleData) "All" "x" "desc" = Throw e.
Proof.
  apply (search_throws_without_company (Probe.nameless :: Sample.sampleData)
           "All" "x" "desc" Probe.nameless).
  - discriminate.
  - apply list_elem_of_here.
  - by left.
  - reflexivity.
Defined.

(** The sample data, whose five dates differ, viewed in both orders. *)
Lemma toggle_reverses_view_witness :
  exists view,
    Client.filteredApps Sample.sampleData "All" "" "desc" = Ok view /\
    Client.filteredApps Sample.sampleData "All" "" (Form.toggleSort "desc") = Ok (rev view).
Proof.
  apply (toggle_reverses_view Sample.sampleData "All" "" "desc").
  - by left.
  - exact sample_is_dated.
  - apply (bool_decide_unpack _). exact I.
Defined.

Lemma valid_form_is_submitted_witness :
  exists c,
    Form.handleSubmit (Form.State true None Runs.acme) =
      (Some c, Form.closeModal (Form.State true None Runs.acme)).
Proof.
  exact (valid_form_is_submitted (Form.State true None Runs.acme) eq_refl).
Defined.

(** The Netflix record edited to "Rejected" and submitted. *)
Lemma edit_is_sent_with_id_of_record_witness :
  exists body,
    Form.updateApplication (Some (JNum (JsNumber.of_Z 3))) (Form.formData Probe.editing_netflix)
      = Form.updateApplication (Probe.netflix !! "id") body /\
    body !! "id" = Probe.netflix !! "id" /\
    (forall k, (forall f, k <> Form.field_name f) -> body !! k = Probe.netflix !! k) /\
    Form.showModal (snd (Form.handleSubmit Probe.editing_netflix)) = false.
Proof.
  exact (edit_is_sent_with_id_of_record "2026-02-01" Probe.netflix
           [(Form.status, "Rejected")] Probe.closed
           (Form.updateApplication (Some (JNum (JsNumber.of_Z 3)))
              (Form.formData Probe.editing_netflix))
           eq_refl).
Defined.

(** A new application typed in and submitted. *)
Lemma new_form_is_sent_without_id_witness :
  exists body,
    Form.createApplication (Form.formData Probe.typing_acme) = Form.createApplication body /\
    body !! "id" = None /\
    dom body = dom (Form.blank "2026-02-01") /\
    (forall f, JsValue.is_string (body !! Form.field_name f) = true).
Proof.
  exact (new_form_is_sent_without_id "2026-02-01"
           [(Form.company, "Acme"); (Form.role, "SWE")] Probe.closed
           (Form.createApplication (Form.formData Probe.typing_acme)) eq_refl).
Defined.

(** The client lets through a company of three spaces, which the server
    rejects: the two checks differ. *)
Example client_accepts_blank_company :
  fst (Form.handleSubmit (Form.State true None (body Runs.create_blank_company))) =
    Some (Form.createApplication (body Runs.create_blank_company)) /\
  Server.passes (body Runs.create_blank_company) = false.
Proof. split; reflexivity. Qed.

(** First start: no data file, and nothing in the way of creating it. *)
Lemma initDataFile_never_overwrites_witness :
  Boot.initDataFile None Boot.Inaccessible = Ok (Boot.Accessible (Some Sample.sampleData)) /\
  (forall content, Boot.Inaccessible = Boot.Accessible content ->
                   Boot.Accessible (Some Sample.sampleData) = Boot.Accessible content) /\
  (Boot.Inaccessible = Boot.Inaccessible ->
   Boot.Accessible (Some Sample.sampleData) = Boot.Accessible (Some Sample.sampleData)) /\
  (forall fault', Boot.initDataFile fault' (Boot.Accessible (Some Sample.sampleData)) =
                  Ok (Boot.Accessible (Some Sample.sampleData))).
Proof.
  split; [reflexivity|].
  exact (initDataFile_never_overwrites None Boot.Inaccessible
           (Boot.Accessible (Some Sample.sampleData)) eq_refl).
Defined.

(** The example record created while the data file cannot be read. *)
Lemma create_on_unreadable_file_starts_over_witness :
  (exists created,
     Server.post_application Runs.create_acme Runs.unreadable =
       (Server.json 201 (JObj created),
        World (Some [created]) None (clock Runs.unreadable))) /\
  Server.put_application Runs.create_acme Runs.unreadable =
    (Server.json 404 (Server.not_found Runs.create_acme), Runs.unreadable) /\
  Server.delete_application Runs.create_acme Runs.unreadable =
    (Server.json 404 (Server.not_found Runs.create_acme), Runs.unreadable).
Proof.
  exact (create_on_unreadable_file_starts_over Runs.create_acme Runs.unreadable
           eq_refl eq_refl eq_refl).
Defined.
